(** * distributed-emunet: the eBPF fast path

    A shallow embedding of the two packet programs of the repository,

    - [tc_bpf.c]  (programs [delay_jitter] and [loss_bps], with the
      helpers [inject_delay_jitter] and [throttle_flow]), and
    - [xdp_bpf.c] (program [xdp_l2_fwd_prog]),

    together with the map declarations of the [header/maps.h] files, and the
    properties of the fast path that the specification states about them.

    Integers are modelled as [Z] with the wrap-around of the C types written
    out ([u32], [u64], [s64]).  BPF hash maps are finite maps ([gmap]) that
    carry their [max_entries]; the kernel helpers the programs call are
    modelled by their documented contract, and every map access, clock read,
    random draw, tail call and redirect request is recorded in a trace, so
    that "no table is touched" is a statement about the trace. *)

From stdpp Require Import base numbers list gmap.

Local Open Scope Z_scope.

(** ** Machine integers and the kernel side of the programs *)

Module Bpf.

Definition u32 (x : Z) : Z := x mod 2 ^ 32.
Definition u64 (x : Z) : Z := x mod 2 ^ 64.

(** Conversion of a 64-bit pattern to [int64_t] (two's complement). *)
Definition s64 (x : Z) : Z :=
  let y := x mod 2 ^ 64 in
  if y <? 2 ^ 63 then y else y - 2 ^ 64.

(** What [x / 0] does.  For the C abstract machine it is undefined; the
    eBPF instruction set defines the quotient to be zero. *)
Inductive div0_policy := Div0Undefined | Div0Zero.

Definition udiv64 (pol : div0_policy) (a b : Z) : option Z :=
  if b =? 0
  then match pol with Div0Undefined => None | Div0Zero => Some 0 end
  else Some (a / b).

(** *** BPF_MAP_TYPE_HASH

    A hash map is declared with a fixed [max_entries].  The update helper
    follows the kernel contract: an existing key is overwritten, a new key
    is refused with [-E2BIG] once [max_entries] keys are stored. *)

Definition BPF_ANY : Z := 0.
Definition BPF_NOEXIST : Z := 1.
Definition BPF_EXIST : Z := 2.

Definition ENOENT : Z := 2.
Definition E2BIG : Z := 7.
Definition EEXIST : Z := 17.
Definition EINVAL : Z := 22.

Record hash_map (K : Type) `{Countable K} (V : Type) := HashMap {
  max_entries : Z;
  table : gmap K V
}.
Arguments HashMap {K _ _ V} _ _.
Arguments max_entries {K _ _ V} _.
Arguments table {K _ _ V} _.

Section hash_map_ops.
Context {K : Type} `{Countable K} {V : Type}.

Definition map_lookup_elem (m : hash_map K V) (k : K) : option V :=
  table m !! k.

Definition map_update_elem (m : hash_map K V) (k : K) (v : V) (flags : Z)
  : Z * hash_map K V :=
  if BPF_EXIST <? flags then (- EINVAL, m)
  else match table m !! k with
       | Some _ =>
           if flags =? BPF_NOEXIST then (- EEXIST, m)
           else (0, HashMap (max_entries m) (<[k := v]> (table m)))
       | None =>
           if flags =? BPF_EXIST then (- ENOENT, m)
           else if max_entries m <=? Z.of_nat (size (table m)) then (- E2BIG, m)
           else (0, HashMap (max_entries m) (<[k := v]> (table m)))
       end.

Definition map_delete_elem (m : hash_map K V) (k : K) : Z * hash_map K V :=
  match table m !! k with
  | Some _ => (0, HashMap (max_entries m) (delete k (table m)))
  | None => (- ENOENT, m)
  end.

(** The requests a control plane (or a program) can make of a map. *)
Inductive map_op :=
| OpUpdate (k : K) (v : V) (flags : Z)
| OpDelete (k : K).

Definition apply_op (m : hash_map K V) (o : map_op) : hash_map K V :=
  match o with
  | OpUpdate k v flags => (map_update_elem m k v flags).2
  | OpDelete k => (map_delete_elem m k).2
  end.

Definition apply_ops (m : hash_map K V) (os : list map_op) : hash_map K V :=
  foldl apply_op m os.

Definition entries (m : hash_map K V) : Z := Z.of_nat (size (table m)).

Definition within_capacity (m : hash_map K V) : Prop :=
  entries m <= max_entries m.
End hash_map_ops.

(** *** linux/if_ether.h: the ethernet header at the start of the packet *)

Definition ETH_ALEN : nat := 6.
Definition ETH_HLEN : nat := 14.

Record ethhdr := EthHdr {
  h_dest : list Z;
  h_source : list Z;
  h_proto : list Z
}.

Definition ethhdr_at (data : list Z) : ethhdr :=
  EthHdr (take ETH_ALEN data)
         (take ETH_ALEN (drop ETH_ALEN data))
         (take 2 (drop (2 * ETH_ALEN) data)).

(** *** Traces and the program monad

    A program runs over a state [S]; [None] stands for an undefined
    operation of the C abstract machine (here: a division by zero). *)

Inductive map_id :=
| id_MAC_HANDLE_EMU | id_flow_map | id_progs | id_mac_table | id_tx_ports.

Inductive event :=
| EvMapLookup (m : map_id)
| EvMapUpdate (m : map_id)
| EvKtime
| EvPrandom
| EvTailCall (index : Z)
| EvRedirectMap (m : map_id).

Definition M (S A : Type) : Type := S -> option (A * S).

Definition ret {S A} (a : A) : M S A := fun s => Some (a, s).

Definition bind {S A B} (c : M S A) (k : A -> M S B) : M S B :=
  fun s => match c s with
           | Some (a, s') => k a s'
           | None => None
           end.

Definition get {S} : M S S := fun s => Some (s, s).
Definition put {S} (s : S) : M S unit := fun _ => Some (tt, s).
Definition lift_option {S A} (o : option A) : M S A :=
  fun s => match o with Some a => Some (a, s) | None => None end.

End Bpf.

Import Bpf.

Declare Scope bpf_scope.
Delimit Scope bpf_scope with bpf.
Notation "x <- c1 ;; c2" := (bind c1 (fun x => c2))
  (at level 100, c1 at next level, right associativity) : bpf_scope.
Notation "c1 ;; c2" := (bind c1 (fun _ => c2))
  (at level 100, right associativity) : bpf_scope.
Local Open Scope bpf_scope.

(** ** tc_bpf.c: delay, jitter, loss and bandwidth pacing *)

Module Tc.

(** Constants of [tc_bpf.c] (lines 15-20) and of the kernel headers. *)
Definition TIME_HORIZON_NS : Z := 2000 * 1000 * 1000.
Definition NS_PER_SEC : Z := 1000000000.
Definition NS_PER_0_0_1_MS : Z := 10000.
Definition PKT_LOSS_SCOPE : Z := 10000.

Definition TC_ACT_OK : Z := 0.
Definition TC_ACT_SHOT : Z := 2.

(** [struct flow_key] and [struct handle_emu] of [header/maps.h]. *)
Record flow_key := FlowKey {
  ifindex : Z;
  src_mac : list Z
}.

Record handle_emu := HandleEmu {
  throttle_rate_bps : Z;
  delay : Z;
  loss_rate : Z;
  jitter : Z
}.

#[global] Instance flow_key_eq_dec : EqDecision flow_key.
Proof. solve_decision. Defined.

#[global] Instance flow_key_countable : Countable flow_key.
Proof.
  refine (inj_countable' (fun k => (ifindex k, src_mac k))
                         (fun p => FlowKey p.1 p.2) _).
  by intros [].
Defined.

(** The map declarations of [header/maps.h]: both hold 65535 entries. *)
Definition MAC_HANDLE_EMU_max_entries : Z := 65535.
Definition flow_map_max_entries : Z := 65535.
Definition progs_max_entries : Z := 2.

Definition MAC_HANDLE_EMU_init : hash_map flow_key handle_emu :=
  HashMap MAC_HANDLE_EMU_max_entries ∅.
Definition flow_map_init : hash_map flow_key Z :=
  HashMap flow_map_max_entries ∅.

(** The fields of [struct __sk_buff] the programs use; [skb_data] is the
    byte range from [data] to [data_end]. *)
Record sk_buff := SkBuff {
  skb_len : Z;
  skb_ifindex : Z;
  skb_tstamp : Z;
  skb_data : list Z
}.

(** What the kernel answers to the two value-returning helpers during one
    run of a program: the monotonic clock and the pseudo-random draw. *)
Record helpers := Helpers {
  ktime_ns : Z;
  prandom_u32 : Z
}.

Record tc_state := TcState {
  st_skb : sk_buff;
  st_flow_map : hash_map flow_key Z;
  st_trace : list event
}.

Abbreviation tc_prog := (M tc_state Z).
Abbreviation prog_array := (gmap Z tc_prog).

(** [traced s evs]: the state [s] after the helper calls [evs];
    [stamped b t]: the packet [b] after [skb->tstamp = t]. *)
Definition traced (s : tc_state) (evs : list event) : tc_state :=
  TcState (st_skb s) (st_flow_map s) (st_trace s ++ evs).

Definition stamped (b : sk_buff) (t : Z) : sk_buff :=
  SkBuff (skb_len b) (skb_ifindex b) t (skb_data b).

Definition log (e : event) : M tc_state unit :=
  fun s => Some (tt, traced s [e]).

Definition read_skb : M tc_state sk_buff :=
  fun s => Some (st_skb s, s).

Definition set_tstamp (t : Z) : M tc_state unit :=
  fun s => Some (tt, TcState (stamped (st_skb s) t) (st_flow_map s) (st_trace s)).

Definition bpf_ktime_get_ns (h : helpers) : M tc_state Z :=
  log EvKtime ;; ret (ktime_ns h).

Definition bpf_get_prandom_u32 (h : helpers) : M tc_state Z :=
  log EvPrandom ;; ret (prandom_u32 h).

Definition lookup_MAC_HANDLE_EMU (emu : hash_map flow_key handle_emu)
    (key : flow_key) : M tc_state (option handle_emu) :=
  log (EvMapLookup id_MAC_HANDLE_EMU) ;; ret (map_lookup_elem emu key).

Definition lookup_flow_map (key : flow_key) : M tc_state (option Z) :=
  log (EvMapLookup id_flow_map) ;;
  s <- get ;;
  ret (map_lookup_elem (st_flow_map s) key).

Definition update_flow_map (key : flow_key) (v : Z) (flags : Z) : M tc_state Z :=
  log (EvMapUpdate id_flow_map) ;;
  s <- get ;;
  let r := map_update_elem (st_flow_map s) key v flags in
  put (TcState (st_skb s) r.2 (st_trace s)) ;;
  ret r.1.

(** [bpf_tail_call(skb, &progs, index)]: when the slot holds a program,
    control moves to it and never comes back; otherwise the caller goes on
    with the statements after the call. *)
Definition bpf_tail_call (progs : prog_array) (index : Z)
    (fallthrough : tc_prog) : tc_prog :=
  log (EvTailCall index) ;;
  match progs !! index with
  | Some p => p
  | None => fallthrough
  end.

(** Modelled from the spec: [header/helpers.h] ([parse_ethhdr],
    [struct hdr_cursor]) is not among the sources.  The spec has the header
    "parsed just far enough to extract source/destination hardware
    addresses" and a "malformed/truncated packet header" dropped; so the
    parser answers [TC_ACT_SHOT] ([None]) exactly when fewer than the 14
    bytes of an ethernet header lie before [data_end], and otherwise hands
    out the header. *)
Definition parse_ethhdr (data : list Z) : option ethhdr :=
  if (length data <? ETH_HLEN)%nat then None
  else Some (ethhdr_at data).

(** Lines 22-54.  The product of the [uint32_t] behind [delay] and the [int]
    constant [NS_PER_0_0_1_MS] is a [uint32_t]: it is formed in 32 bits and
    only then widened to the
    64-bit [delay_ns] (likewise [jitter_ns]).  [random_jitter] is an
    [int64_t]; the sums are formed in [uint64_t].  [jitter_offset] is the
    value of [random_jitter] (lines 33-39) as a function of the draw. *)
Definition delay_ns_of (delay : Z) : Z := u32 (delay * NS_PER_0_0_1_MS).
Definition jitter_ns_of (jitter : Z) : Z := u32 (jitter * NS_PER_0_0_1_MS).

Definition random_jitter_of (jitter_ns rand : Z) : Z :=
  s64 (u64 (rand mod u64 (2 * jitter_ns + 1) - jitter_ns)).

Definition jitter_offset (h : helpers) (jitter : Z) : Z :=
  if 0 <? jitter_ns_of jitter
  then random_jitter_of (jitter_ns_of jitter) (prandom_u32 h)
  else 0.

Definition inject_delay_jitter (h : helpers) (delay jitter : Z) : tc_prog :=
  now <- bpf_ktime_get_ns h ;;
  let delay_ns := delay_ns_of delay in
  let jitter_ns := jitter_ns_of jitter in
  skb <- read_skb ;;
  let ts := skb_tstamp skb in
  random_jitter <-
    (if 0 <? jitter_ns
     then rand <- bpf_get_prandom_u32 h ;;
          ret (random_jitter_of jitter_ns rand)
     else ret 0) ;;
  let new_ts :=
    if ts =? 0
    then u64 (u64 (now + delay_ns) + random_jitter)
    else u64 (u64 (ts + delay_ns) + random_jitter) in
  set_tstamp new_ts ;;
  ret TC_ACT_OK.

(** Lines 60-110.  The tests [if (!delay)] and [if (!jitter)] compare the
    address of a field of a non-null struct with null and never fire. *)
Definition delay_jitter (emu : hash_map flow_key handle_emu) (h : helpers)
    : tc_prog :=
  skb <- read_skb ;;
  match parse_ethhdr (skb_data skb) with
  | None => ret TC_ACT_SHOT
  | Some eth =>
      let key := FlowKey (skb_ifindex skb) (h_source eth) in
      val_struct <- lookup_MAC_HANDLE_EMU emu key ;;
      match val_struct with
      | None => ret TC_ACT_OK
      | Some val => inject_delay_jitter h (delay val) (jitter val)
      end
  end.

(** Lines 112-160.  [departure] is the local [tstamp] of lines 120-124:
    the stamp of the packet, or the present when the stamp is unset or
    already past.  [candidate_next] is [next_tstamp] (lines 126-133). *)
Definition throttle_delay_ns (pol : div0_policy) (len rate : Z) : option Z :=
  udiv64 pol (u64 (u64 (len * 8) * NS_PER_SEC)) rate.

Definition departure (b : sk_buff) (now : Z) : Z :=
  if skb_tstamp b <? now then now else skb_tstamp b.

Definition candidate_next (last_tstamp : option Z) (tstamp delay_ns : Z) : Z :=
  match last_tstamp with
  | Some last => u64 (last + delay_ns)
  | None => u64 (tstamp + delay_ns)
  end.

Definition throttle_flow (pol : div0_policy) (progs : prog_array)
    (h : helpers) (key : flow_key) (throttle_rate_bps : Z) : tc_prog :=
  last_tstamp <- lookup_flow_map key ;;
  skb <- read_skb ;;
  delay_ns <- lift_option (throttle_delay_ns pol (skb_len skb) throttle_rate_bps) ;;
  now <- bpf_ktime_get_ns h ;;
  let tstamp := departure skb now in
  let next_tstamp := candidate_next last_tstamp tstamp delay_ns in
  if next_tstamp <=? tstamp then
    let new_base := u64 (tstamp + delay_ns) in
    update_flow_map key new_base BPF_ANY ;;
    bpf_tail_call progs 0 (ret TC_ACT_OK)
  else if TIME_HORIZON_NS <=? u64 (next_tstamp - now) then
    ret TC_ACT_SHOT
  else
    rc <- update_flow_map key next_tstamp BPF_ANY ;;
    if negb (rc =? 0) then ret TC_ACT_SHOT
    else
      set_tstamp next_tstamp ;;
      bpf_tail_call progs 0 (ret TC_ACT_OK).

(** Lines 199-207: the loss decision. *)
Definition loss_stage (h : helpers) (loss_rate : Z) : M tc_state bool :=
  if 0 <? loss_rate then
    r <- bpf_get_prandom_u32 h ;;
    let rand_num := r mod PKT_LOSS_SCOPE in
    ret (rand_num <? loss_rate)
  else ret false.

(** Lines 162-219.  The test [if (!throttle_rate_bps)] at line 214 compares
    the address [&val_struct->throttle_rate_bps] with null, not the
    configured rate; it never fires. *)
Definition loss_bps (pol : div0_policy) (progs : prog_array)
    (emu : hash_map flow_key handle_emu) (h : helpers) : tc_prog :=
  skb <- read_skb ;;
  match parse_ethhdr (skb_data skb) with
  | None => ret TC_ACT_SHOT
  | Some eth =>
      let key := FlowKey (skb_ifindex skb) (h_source eth) in
      val_struct <- lookup_MAC_HANDLE_EMU emu key ;;
      match val_struct with
      | None => ret TC_ACT_OK
      | Some val =>
          lost <- loss_stage h (loss_rate val) ;;
          if lost then ret TC_ACT_SHOT
          else throttle_flow pol progs h key (throttle_rate_bps val)
      end
  end.

(** Well-formed inputs: every field lies in the range of its C type. *)
Definition wf_helpers (h : helpers) : Prop :=
  0 <= ktime_ns h < 2 ^ 64 /\ 0 <= prandom_u32 h < 2 ^ 32.

Definition wf_skb (b : sk_buff) : Prop :=
  0 <= skb_len b < 2 ^ 32 /\ 0 <= skb_ifindex b < 2 ^ 32 /\
  0 <= skb_tstamp b < 2 ^ 64.

Definition wf_handle_emu (v : handle_emu) : Prop :=
  0 <= throttle_rate_bps v < 2 ^ 32 /\ 0 <= delay v < 2 ^ 32 /\
  0 <= loss_rate v < 2 ^ 32 /\ 0 <= jitter v < 2 ^ 32.

(** Lines 202-206 as a function of the configured rate and of the value
    [bpf_get_prandom_u32] returned: whether the packet is shot. *)
Definition loss_verdict (loss_rate rand : Z) : bool :=
  if 0 <? loss_rate then rand mod PKT_LOSS_SCOPE <? loss_rate else false.

(** A run of packets of one flow through the pacing stage, one after the
    other, each with the helper answers of its own run; the pacing table is
    handed from one run to the next.  The result lists, in order, the
    departure time and the length of every packet that was let through, and
    gives the table that is left. *)
Fixpoint pace_all (pol : div0_policy) (key : flow_key) (rate : Z)
    (fm : hash_map flow_key Z) (pkts : list (sk_buff * helpers))
    : list (Z * Z) * hash_map flow_key Z :=
  match pkts with
  | [] => ([], fm)
  | (b, h) :: rest =>
      match throttle_flow pol ∅ h key rate (TcState b fm []) with
      | Some (act, s') =>
          let r := pace_all pol key rate (st_flow_map s') rest in
          if act =? TC_ACT_OK
          then ((departure (st_skb s') (ktime_ns h), skb_len b) :: r.1, r.2)
          else r
      | None => ([], fm)
      end
  end.

(** The packets and clock readings for which no 64-bit sum of the pacing
    stage wraps. *)
Definition paced_input (p : sk_buff * helpers) : Prop :=
  0 < skb_len p.1 < 2 ^ 28 /\ 0 <= skb_tstamp p.1 < 2 ^ 62 /\ 0 <= ktime_ns p.2 < 2 ^ 62.

End Tc.

(** ** xdp_bpf.c: layer-2 forwarding *)

Module Xdp.

Definition XDP_ABORTED : Z := 0.
Definition XDP_DROP : Z := 1.
Definition XDP_PASS : Z := 2.
Definition XDP_TX : Z := 3.
Definition XDP_REDIRECT : Z := 4.

Definition BPF_F_BROADCAST : Z := 8.
Definition BPF_F_EXCLUDE_INGRESS : Z := 16.

(** The map declarations: [mac_table] and [tx_ports] of [xdp_bpf.c] (lines
    31-53), and [fdb_map] of [ebpf-xdp-c/header/maps.h], which the program
    neither includes nor uses. *)
Definition mac_table_max_entries : Z := 65535.
Definition tx_ports_max_entries : Z := 1024.
Definition fdb_map_max_entries : Z := 1024.

Definition mac_table_init : hash_map (list Z) Z :=
  HashMap mac_table_max_entries ∅.
Definition fdb_map_init : hash_map (list Z) Z :=
  HashMap fdb_map_max_entries ∅.

(** [tx_ports] is a DEVMAP_HASH keyed by interface index ("key: ifindex");
    the model keeps the set of its keys. *)
Record devmap := DevMap {
  dev_max_entries : Z;
  ports : gset Z
}.

Record xdp_md := XdpMd {
  data : list Z;
  ingress_ifindex : Z
}.

(** The per-CPU redirect record that [bpf_redirect_map] fills in. *)
Record redirect_info := RedirectInfo {
  tgt_index : Z;
  ri_flags : Z
}.

Record xdp_state := XdpState {
  xs_redirect : option redirect_info;
  xs_trace : list event
}.

Definition xdp_init : xdp_state := XdpState None [].

Definition log (e : event) : M xdp_state unit :=
  fun s => Some (tt, XdpState (xs_redirect s) (xs_trace s ++ [e])).

Definition set_redirect (r : option redirect_info) : M xdp_state unit :=
  fun s => Some (tt, XdpState r (xs_trace s)).

Definition lookup_mac_table (mac_table : hash_map (list Z) Z)
    (key : list Z) : M xdp_state (option Z) :=
  log (EvMapLookup id_mac_table) ;; ret (map_lookup_elem mac_table key).

(** [bpf_redirect_map(map, key, flags)], by the kernel contract: unknown
    flag bits abort; a key that is not in the map, without the broadcast
    flag, yields the low two bits of [flags] as the action; otherwise the
    redirect is recorded and the action is XDP_REDIRECT. *)
Definition action_mask : Z := 3.

Definition bpf_redirect_map (tx_ports : devmap) (key flags : Z) : M xdp_state Z :=
  log (EvRedirectMap id_tx_ports) ;;
  if negb (Z.land flags
             (Z.lnot (Z.lor action_mask
                        (Z.lor BPF_F_BROADCAST BPF_F_EXCLUDE_INGRESS))) =? 0)
  then ret XDP_ABORTED
  else if negb (bool_decide (key ∈ ports tx_ports))
          && (Z.land flags BPF_F_BROADCAST =? 0)
  then set_redirect None ;; ret (Z.land flags action_mask)
  else
    set_redirect
      (Some (RedirectInfo key
               (if Z.land flags BPF_F_BROADCAST =? 0 then 0 else flags))) ;;
    ret XDP_REDIRECT.

(** Lines 56-102.  [bpf_debug] only writes to the trace pipe. *)
Definition xdp_l2_fwd_prog (mac_table : hash_map (list Z) Z)
    (tx_ports : devmap) (ctx : xdp_md) : M xdp_state Z :=
  if (length (data ctx) <? ETH_HLEN)%nat then ret XDP_DROP
  else
    let eth := ethhdr_at (data ctx) in
    if negb (Z.land (nth 0 (h_dest eth) 0) 1 =? 0) then
      bpf_redirect_map tx_ports 0 (Z.lor BPF_F_BROADCAST BPF_F_EXCLUDE_INGRESS)
    else
      let key := h_dest eth in
      dest_ifindex <- lookup_mac_table mac_table key ;;
      match dest_ifindex with
      | Some d => bpf_redirect_map tx_ports d 0
      | None => ret XDP_PASS
      end.

(** What becomes of the packet once the program has returned: the driver
    acts on the action code and, for XDP_REDIRECT, on the redirect record
    ([xdp_do_redirect]): a broadcast goes to every port of the map, minus
    the ingress interface when BPF_F_EXCLUDE_INGRESS is set. *)
Inductive disposition :=
| Dropped
| DefaultDelivery
| Bounced
| RedirectedTo (ifindex : Z)
| FloodedTo (targets : gset Z).

Definition xdp_do_redirect (tx_ports : devmap) (ingress : Z)
    (r : option redirect_info) : disposition :=
  match r with
  | None => Dropped
  | Some ri =>
      if Z.land (ri_flags ri) BPF_F_BROADCAST =? 0 then RedirectedTo (tgt_index ri)
      else if Z.land (ri_flags ri) BPF_F_EXCLUDE_INGRESS =? 0
           then FloodedTo (ports tx_ports)
           else FloodedTo (ports tx_ports ∖ {[ ingress ]})
  end.

Definition dispose (tx_ports : devmap) (ingress : Z) (act : Z)
    (s : xdp_state) : disposition :=
  if act =? XDP_REDIRECT then xdp_do_redirect tx_ports ingress (xs_redirect s)
  else if act =? XDP_PASS then DefaultDelivery
  else if act =? XDP_TX then Bounced
  else Dropped.

(** The forwarding stage as a whole: run the program on a fresh redirect
    record and let the driver act. *)
Definition forward (mac_table : hash_map (list Z) Z) (tx_ports : devmap)
    (ctx : xdp_md) : option (disposition * list event) :=
  match xdp_l2_fwd_prog mac_table tx_ports ctx xdp_init with
  | Some (act, s) =>
      Some (dispose tx_ports (ingress_ifindex ctx) act s, xs_trace s)
  | None => None
  end.

(** The interfaces a disposition hands the packet to. *)
Definition delivers_to (d : disposition) (i : Z) : Prop :=
  match d with
  | RedirectedTo j => i = j
  | FloodedTo targets => i ∈ targets
  | _ => False
  end.

End Xdp.


(** ** The concrete scenario of the specification, and other fixed inputs *)

Module Scenario.
Import Tc.

Definition mac_src : list Z := [0xAA; 0xBB; 0xCC; 0xDD; 0xEE; 0xFF].
Definition mac_dst : list Z := [0x02; 0x00; 0x00; 0x00; 0x00; 0x01].
Definition mac_bcast : list Z := [0xFF; 0xFF; 0xFF; 0xFF; 0xFF; 0xFF].

(** An ethernet frame of [n] bytes from [mac_src] to [dst] (IPv4 type,
    zero payload), and a runt of 13 bytes. *)
Definition frame (dst : list Z) (n : nat) : list Z :=
  dst ++ mac_src ++ [0x08; 0x00] ++ replicate (n - 14) 0.

Definition runt : list Z := take 13 (frame mac_dst 64).

(** interface_id = 3, source_hw_addr = AA:BB:CC:DD:EE:FF. *)
Definition key : flow_key := FlowKey 3 mac_src.

(** rate = 1,000,000 bps, delay = 100 (1 ms), loss = 0, jitter = 0. *)
Definition spec : handle_emu := HandleEmu 1000000 100 0 0.

Definition emu (v : handle_emu) : hash_map flow_key handle_emu :=
  HashMap MAC_HANDLE_EMU_max_entries {[ key := v ]}.

(** A 1500-byte packet of the flow carrying the stamp [stamp]. *)
Definition packet (stamp : Z) : sk_buff :=
  SkBuff 1500 3 stamp (frame mac_dst 1500).

(** A 64-byte packet of the flow carrying the stamp [stamp]. *)
Definition small_packet (stamp : Z) : sk_buff :=
  SkBuff 64 3 stamp (frame mac_dst 64).

Definition flow_map_with (last : Z) : hash_map flow_key Z :=
  HashMap flow_map_max_entries {[ key := last ]}.

(** A pacing table at capacity that holds 65535 other flows. *)
Definition other_key (i : nat) : flow_key := FlowKey (Z.of_nat i) (replicate 6 0).

Definition full_flow_map : hash_map flow_key Z :=
  HashMap flow_map_max_entries
    (list_to_map ((fun i => (other_key i, 0)) <$> seq 0 (Z.to_nat flow_map_max_entries))).

(** A forwarding table that knows [mac_dst] behind interface [d]. *)
Definition mac_table_with (d : Z) : hash_map (list Z) Z :=
  HashMap Xdp.mac_table_max_entries {[ mac_dst := d ]}.

(** [n] forwarding entries for [n] distinct addresses. *)
Definition learn (n : nat) : list (@map_op (list Z) Z) :=
  (fun i => OpUpdate [0x02; 0; 0; 0; Z.of_nat (i / 256); Z.of_nat (i mod 256)] 7 BPF_ANY)
    <$> seq 0 n.

End Scenario.

(** * Properties *)

Import Tc.

(** ** Arithmetic of the machine integers *)

Lemma u64_range x : 0 <= u64 x < 2 ^ 64.
Proof. unfold u64. apply Z.mod_pos_bound. lia. Qed.

Lemma u32_range x : 0 <= u32 x < 2 ^ 32.
Proof. unfold u32. apply Z.mod_pos_bound. lia. Qed.

Lemma u64_small x : 0 <= x < 2 ^ 64 -> u64 x = x.
Proof. intros Hx. unfold u64. by apply Z.mod_small. Qed.

Lemma u32_small x : 0 <= x < 2 ^ 32 -> u32 x = x.
Proof. intros Hx. unfold u32. by apply Z.mod_small. Qed.

Lemma u64_add_l a b : u64 (u64 a + b) = u64 (a + b).
Proof. unfold u64. apply Zplus_mod_idemp_l. Qed.

Lemma u64_mul_l a b : u64 (u64 a * b) = u64 (a * b).
Proof. unfold u64. apply Zmult_mod_idemp_l. Qed.

Lemma s64_u64_small x : - 2 ^ 63 <= x < 2 ^ 63 -> s64 (u64 x) = x.
Proof.
  intros Hx. unfold s64, u64. rewrite Z.mod_mod by lia.
  destruct (Z.ltb_spec (x mod 2 ^ 64) (2 ^ 63)) as [Hlt | Hge].
  - destruct (Z.lt_ge_cases x 0) as [Hneg | Hpos].
    + rewrite <- (Z.mod_add x 1 (2 ^ 64)) in Hlt by lia.
      rewrite Z.mod_small in Hlt by lia. lia.
    + apply Z.mod_small. lia.
  - destruct (Z.lt_ge_cases x 0) as [Hneg | Hpos].
    + rewrite <- (Z.mod_add x 1 (2 ^ 64)) by lia.
      rewrite Z.mod_small by lia. lia.
    + rewrite Z.mod_small in Hge by lia. lia.
Qed.

Lemma udiv64_nonzero pol a b : b <> 0 -> udiv64 pol a b = Some (a / b).
Proof. intros Hb. unfold udiv64. by destruct (Z.eqb_spec b 0). Qed.

(** ** Running the programs *)

Lemma parse_ethhdr_truncated data :
  (length data < ETH_HLEN)%nat -> parse_ethhdr data = None.
Proof.
  intros Hlen. unfold parse_ethhdr.
  by destruct (Nat.ltb_spec (length data) ETH_HLEN); [| lia].
Qed.

Lemma parse_ethhdr_Some data eth :
  parse_ethhdr data = Some eth -> (ETH_HLEN <= length data)%nat /\ eth = ethhdr_at data.
Proof.
  unfold parse_ethhdr.
  destruct (Nat.ltb_spec (length data) ETH_HLEN); [done |].
  intros [= <-]. done.
Qed.

Lemma bpf_tail_call_empty (progs : prog_array) index (k : tc_prog) s :
  progs !! index = None ->
  bpf_tail_call progs index k s = k (traced s [EvTailCall index]).
Proof. intros Hslot. unfold bpf_tail_call, bind, log. by rewrite Hslot. Qed.

Lemma bpf_tail_call_jump (progs : prog_array) index (k p : tc_prog) s :
  progs !! index = Some p ->
  bpf_tail_call progs index k s = p (traced s [EvTailCall index]).
Proof. intros Hslot. unfold bpf_tail_call, bind, log. by rewrite Hslot. Qed.

Lemma traced_traced s e1 e2 : traced (traced s e1) e2 = traced s (e1 ++ e2).
Proof. unfold traced. simpl. by rewrite <- app_assoc. Qed.

Lemma throttle_flow_run pol progs h key rate s dur :
  throttle_delay_ns pol (skb_len (st_skb s)) rate = Some dur ->
  let now := ktime_ns h in
  let base := departure (st_skb s) now in
  let next := candidate_next (map_lookup_elem (st_flow_map s) key) base dur in
  throttle_flow pol progs h key rate s =
    if next <=? base then
      let r := map_update_elem (st_flow_map s) key (u64 (base + dur)) BPF_ANY in
      bpf_tail_call progs 0 (ret TC_ACT_OK)
        (TcState (st_skb s) r.2
           (st_trace s ++ [EvMapLookup id_flow_map; EvKtime; EvMapUpdate id_flow_map]))
    else if TIME_HORIZON_NS <=? u64 (next - now) then
      Some (TC_ACT_SHOT, traced s [EvMapLookup id_flow_map; EvKtime])
    else
      let r := map_update_elem (st_flow_map s) key next BPF_ANY in
      if negb (r.1 =? 0) then
        Some (TC_ACT_SHOT,
              TcState (st_skb s) r.2
                (st_trace s ++ [EvMapLookup id_flow_map; EvKtime; EvMapUpdate id_flow_map]))
      else
        bpf_tail_call progs 0 (ret TC_ACT_OK)
          (TcState (stamped (st_skb s) next) r.2
             (st_trace s ++ [EvMapLookup id_flow_map; EvKtime; EvMapUpdate id_flow_map])).
Proof.
  intros Hd now base next.
  unfold throttle_flow, bind at 1 2 3 4.
  unfold lookup_flow_map, read_skb, bpf_ktime_get_ns, bind, log, get, ret, lift_option.
  cbn [st_skb st_flow_map st_trace traced]. rewrite Hd.
  fold now. fold base. fold next.
  destruct (next <=? base).
  - unfold update_flow_map, bind, log, get, put, ret, traced.
    cbn [st_skb st_flow_map st_trace fst snd].
    rewrite <- !app_assoc. reflexivity.
  - destruct (TIME_HORIZON_NS <=? u64 (next - now)).
    + by rewrite traced_traced.
    + unfold update_flow_map, bind, log, get, put, ret, set_tstamp, traced.
      cbn [st_skb st_flow_map st_trace fst snd].
      rewrite <- !app_assoc. cbn [app].
      destruct (negb _); reflexivity.
Qed.

Lemma loss_bps_run pol progs emu h s eth :
  parse_ethhdr (skb_data (st_skb s)) = Some eth ->
  let key := FlowKey (skb_ifindex (st_skb s)) (h_source eth) in
  loss_bps pol progs emu h s =
    match map_lookup_elem emu key with
    | None => Some (TC_ACT_OK, traced s [EvMapLookup id_MAC_HANDLE_EMU])
    | Some val =>
        if 0 <? loss_rate val then
          if prandom_u32 h mod PKT_LOSS_SCOPE <? loss_rate val
          then Some (TC_ACT_SHOT, traced s [EvMapLookup id_MAC_HANDLE_EMU; EvPrandom])
          else throttle_flow pol progs h key (throttle_rate_bps val)
                 (traced s [EvMapLookup id_MAC_HANDLE_EMU; EvPrandom])
        else throttle_flow pol progs h key (throttle_rate_bps val)
               (traced s [EvMapLookup id_MAC_HANDLE_EMU])
    end.
Proof.
  intros Hparse key.
  unfold loss_bps, bind at 1. unfold read_skb. rewrite Hparse.
  unfold bind at 1. unfold lookup_MAC_HANDLE_EMU, bind, log, ret.
  fold key. destruct (map_lookup_elem emu key) as [val |]; [| done].
  unfold loss_stage. destruct (0 <? loss_rate val); [| done].
  unfold bpf_get_prandom_u32, bind, log, ret. rewrite traced_traced.
  by destruct (_ <? loss_rate val).
Qed.

Lemma delay_jitter_run emu h s eth :
  parse_ethhdr (skb_data (st_skb s)) = Some eth ->
  let key := FlowKey (skb_ifindex (st_skb s)) (h_source eth) in
  delay_jitter emu h s =
    match map_lookup_elem emu key with
    | None => Some (TC_ACT_OK, traced s [EvMapLookup id_MAC_HANDLE_EMU])
    | Some val =>
        let ts := skb_tstamp (st_skb s) in
        let base := if ts =? 0 then ktime_ns h else ts in
        Some (TC_ACT_OK,
              TcState
                (stamped (st_skb s)
                   (u64 (base + delay_ns_of (delay val) + jitter_offset h (jitter val))))
                (st_flow_map s)
                (st_trace s ++ [EvMapLookup id_MAC_HANDLE_EMU; EvKtime]
                   ++ (if 0 <? jitter_ns_of (jitter val) then [EvPrandom] else [])))
    end.
Proof.
  intros Hparse key.
  unfold delay_jitter, bind at 1. unfold read_skb. rewrite Hparse.
  unfold bind at 1. unfold lookup_MAC_HANDLE_EMU, bind, log, ret.
  fold key. destruct (map_lookup_elem emu key) as [val |]; [| done].
  unfold inject_delay_jitter, jitter_offset, bpf_ktime_get_ns, read_skb,
    bpf_get_prandom_u32, set_tstamp, bind, log, ret, traced.
  cbn [st_skb st_flow_map st_trace].
  destruct (0 <? jitter_ns_of (jitter val));
    cbn [st_skb st_flow_map st_trace]; rewrite <- !app_assoc; cbn [app];
    destruct (skb_tstamp (st_skb s) =? 0); by rewrite u64_add_l.
Qed.

(** ** The claims *)

(** C8.  A packet whose ethernet header is truncated (fewer than 14 bytes
    before [data_end]) is dropped by the forwarding program and by both
    impairment programs, and no table is looked up or written on the way:
    the state, with its trace of map accesses, is the one the program
    started from, whatever the tables hold. *)
Theorem truncated_header_dropped_before_lookup
    (ctx : Xdp.xdp_md) (mac_table : hash_map (list Z) Z) (tx_ports : Xdp.devmap)
    (xs : Xdp.xdp_state)
    (pol : div0_policy) (progs : prog_array)
    (emu : hash_map flow_key handle_emu) (h : helpers) (s : tc_state) :
  (length (Xdp.data ctx) < ETH_HLEN)%nat ->
  (length (skb_data (st_skb s)) < ETH_HLEN)%nat ->
  Xdp.xdp_l2_fwd_prog mac_table tx_ports ctx xs = Some (Xdp.XDP_DROP, xs) /\
  Xdp.forward mac_table tx_ports ctx = Some (Xdp.Dropped, []) /\
  delay_jitter emu h s = Some (TC_ACT_SHOT, s) /\
  loss_bps pol progs emu h s = Some (TC_ACT_SHOT, s).
Proof.
  intros Hx Ht.
  assert (Hprog : forall xs', Xdp.xdp_l2_fwd_prog mac_table tx_ports ctx xs'
                              = Some (Xdp.XDP_DROP, xs')).
  { intros xs'. unfold Xdp.xdp_l2_fwd_prog.
    by destruct (Nat.ltb_spec (length (Xdp.data ctx)) ETH_HLEN); [| lia]. }
  split; [apply Hprog |].
  split; [unfold Xdp.forward; by rewrite Hprog |].
  pose proof (parse_ethhdr_truncated _ Ht) as Hparse.
  split.
  - unfold delay_jitter, bind, read_skb. by rewrite Hparse.
  - unfold loss_bps, bind, read_skb. by rewrite Hparse.
Qed.

Lemma truncated_header_dropped_before_lookup_witness :
  Xdp.forward Xdp.mac_table_init (Xdp.DevMap 1024 {[ 4; 5 ]})
              (Xdp.XdpMd Scenario.runt 3) = Some (Xdp.Dropped, []) /\
  loss_bps Div0Zero ∅ (Scenario.emu Scenario.spec) (Helpers 1000 7)
    (TcState (SkBuff 13 3 0 Scenario.runt) flow_map_init [])
  = Some (TC_ACT_SHOT, TcState (SkBuff 13 3 0 Scenario.runt) flow_map_init []).
Proof.
  pose proof (truncated_header_dropped_before_lookup
                (Xdp.XdpMd Scenario.runt 3) Xdp.mac_table_init
                (Xdp.DevMap 1024 {[ 4; 5 ]}) Xdp.xdp_init
                Div0Zero ∅ (Scenario.emu Scenario.spec) (Helpers 1000 7)
                (TcState (SkBuff 13 3 0 Scenario.runt) flow_map_init [])) as H.
  destruct H as (_ & Hf & _ & Hl); [vm_compute; lia | vm_compute; lia |].
  split; [exact Hf | exact Hl].
Defined.

(** C6.  The loss stage of [loss_bps], for a packet with a well-formed
    header.  Without an impairment entry the program returns TC_ACT_OK.  With
    an entry whose loss rate is 0 no number is drawn and the packet goes on to
    the pacing stage.  Otherwise one number is drawn, reduced to
    [0, 10000), and the packet is shot at once (no pacing lookup, no tail
    call) when the draw is below the loss rate, and goes on to the pacing
    stage exactly when it is not. *)
Theorem loss_stage_drops_iff_draw_below_rate
    (pol : div0_policy) (progs : prog_array)
    (emu : hash_map flow_key handle_emu) (h : helpers) (s : tc_state)
    (eth : ethhdr) :
  parse_ethhdr (skb_data (st_skb s)) = Some eth ->
  (forall v, map_lookup_elem emu (FlowKey (skb_ifindex (st_skb s)) (h_source eth)) = Some v ->
             0 <= loss_rate v) ->
  let key := FlowKey (skb_ifindex (st_skb s)) (h_source eth) in
  let draw := prandom_u32 h mod 10000 in
  match map_lookup_elem emu key with
  | None =>
      loss_bps pol progs emu h s
      = Some (TC_ACT_OK, traced s [EvMapLookup id_MAC_HANDLE_EMU])
  | Some v =>
      if loss_rate v =? 0 then
        loss_bps pol progs emu h s
        = throttle_flow pol progs h key (throttle_rate_bps v)
            (traced s [EvMapLookup id_MAC_HANDLE_EMU])
      else
        0 <= draw < 10000 /\
        loss_stage h (loss_rate v) (traced s [EvMapLookup id_MAC_HANDLE_EMU])
        = Some (bool_decide (draw < loss_rate v),
                traced s [EvMapLookup id_MAC_HANDLE_EMU; EvPrandom]) /\
        (draw < loss_rate v ->
         loss_bps pol progs emu h s
         = Some (TC_ACT_SHOT, traced s [EvMapLookup id_MAC_HANDLE_EMU; EvPrandom])) /\
        (~ draw < loss_rate v ->
         loss_bps pol progs emu h s
         = throttle_flow pol progs h key (throttle_rate_bps v)
             (traced s [EvMapLookup id_MAC_HANDLE_EMU; EvPrandom]))
  end.
Proof.
  intros Hparse Hwf key draw.
  rewrite (loss_bps_run _ _ _ _ _ _ Hparse). fold key.
  destruct (map_lookup_elem emu key) as [v |] eqn:Hv; [| done].
  specialize (Hwf v Hv).
  destruct (Z.eqb_spec (loss_rate v) 0) as [Hz | Hnz].
  - rewrite Hz. done.
  - destruct (Z.ltb_spec 0 (loss_rate v)) as [_ | ?]; [| lia].
    change (prandom_u32 h mod PKT_LOSS_SCOPE) with draw.
    split; [apply Z.mod_pos_bound; lia |].
    split.
    + unfold loss_stage.
      destruct (Z.ltb_spec 0 (loss_rate v)) as [_ | ?]; [| lia].
      unfold bpf_get_prandom_u32, bind, log, ret. rewrite traced_traced.
      change (prandom_u32 h mod PKT_LOSS_SCOPE) with draw.
      cbn [app]. do 2 f_equal.
      destruct (Z.ltb_spec draw (loss_rate v));
        [by rewrite bool_decide_eq_true_2 | by rewrite bool_decide_eq_false_2; [| lia]].
    + split; intros Hd.
      * by destruct (Z.ltb_spec draw (loss_rate v)); [| lia].
      * by destruct (Z.ltb_spec draw (loss_rate v)).
Qed.

Lemma loss_stage_drops_iff_draw_below_rate_witness :
  loss_bps Div0Zero ∅ (Scenario.emu (HandleEmu 1000000 100 2500 0)) (Helpers 1000 12499)
    (TcState (Scenario.small_packet 0) flow_map_init [])
  = Some (TC_ACT_SHOT,
          TcState (Scenario.small_packet 0) flow_map_init
            [EvMapLookup id_MAC_HANDLE_EMU; EvPrandom]).
Proof.
  pose proof (loss_stage_drops_iff_draw_below_rate Div0Zero ∅
                (Scenario.emu (HandleEmu 1000000 100 2500 0)) (Helpers 1000 12499)
                (TcState (Scenario.small_packet 0) flow_map_init [])
                (ethhdr_at (Scenario.frame Scenario.mac_dst 64))) as H.
  cbv zeta in H.
  assert (Hl : map_lookup_elem (Scenario.emu (HandleEmu 1000000 100 2500 0))
                 (FlowKey (skb_ifindex (st_skb (TcState (Scenario.small_packet 0)
                                                  flow_map_init [])))
                    (h_source (ethhdr_at (Scenario.frame Scenario.mac_dst 64))))
               = Some (HandleEmu 1000000 100 2500 0)) by reflexivity.
  rewrite Hl in H.
  destruct H as (_ & _ & Hdrop & _).
  - reflexivity.
  - intros v [= <-]. simpl. lia.
  - apply Hdrop. vm_compute. reflexivity.
Defined.



(** ** The pacing table at capacity *)

Lemma other_key_inj : Inj (=) (=) Scenario.other_key.
Proof. intros i j [= Hij]. lia. Qed.

Lemma full_flow_map_entries :
  entries Scenario.full_flow_map = max_entries Scenario.full_flow_map.
Proof.
  unfold entries, Scenario.full_flow_map. cbn [table max_entries].
  remember (Z.to_nat flow_map_max_entries) as n eqn:Hn.
  rewrite map_size_list_to_map.
  - rewrite length_fmap, length_seq. rewrite Hn. by rewrite Z2Nat.id.
  - rewrite <- list_fmap_compose.
    apply NoDup_fmap_2; [| apply NoDup_seq].
    intros i j Hij. by apply other_key_inj.
Qed.

Lemma full_flow_map_lookup_key :
  map_lookup_elem Scenario.full_flow_map Scenario.key = None.
Proof.
  unfold map_lookup_elem, Scenario.full_flow_map. cbn [table].
  generalize (Z.to_nat flow_map_max_entries). intros n.
  apply not_elem_of_list_to_map_1.
  rewrite <- list_fmap_compose. intros (i & Hi & _)%list_elem_of_fmap.
  discriminate Hi.
Qed.

Lemma map_update_elem_full {K V} `{Countable K} (m : hash_map K V) k v :
  map_lookup_elem m k = None -> max_entries m <= entries m ->
  map_update_elem m k v BPF_ANY = (- E2BIG, m).
Proof.
  unfold map_lookup_elem, entries, map_update_elem. intros -> Hfull.
  change (BPF_EXIST <? BPF_ANY) with false. change (BPF_ANY =? BPF_EXIST) with false.
  cbv iota. by destruct (Z.leb_spec (max_entries m) (Z.of_nat (size (table m)))); [| lia].
Qed.

Lemma full_flow_map_refuses_key v :
  map_update_elem Scenario.full_flow_map Scenario.key v BPF_ANY
  = (- E2BIG, Scenario.full_flow_map).
Proof.
  apply map_update_elem_full.
  - apply full_flow_map_lookup_key.
  - rewrite full_flow_map_entries. lia.
Qed.

(** C1 (the code departs from the claim).  [loss_bps] hands every flow
    that has an impairment entry to [throttle_flow], also when the configured
    rate is 0: the test before the call looks at the address of the field,
    not at its value.  [throttle_flow] then divides by the rate.  On the C
    abstract machine that division is undefined, whatever the packet; with
    the quotient 0 of the eBPF target the packet is paced with a duration of
    0: a pacing entry is written for the flow, and a packet that finds a
    stored timestamp 2 seconds or more ahead is shot. *)
Theorem zero_rate_still_reaches_throttle_flow :
  (forall progs h key s, throttle_flow Div0Undefined progs h key 0 s = None) /\
  loss_bps Div0Undefined ∅ (Scenario.emu (HandleEmu 0 0 0 0)) (Helpers 1000 0)
    (TcState (Scenario.small_packet 0) flow_map_init [])
  = None /\
  loss_bps Div0Zero ∅ (Scenario.emu (HandleEmu 0 0 0 0)) (Helpers 1000 0)
    (TcState (Scenario.small_packet 0) flow_map_init [])
  = Some (TC_ACT_OK,
          TcState (Scenario.small_packet 0) (Scenario.flow_map_with 1000)
            [EvMapLookup id_MAC_HANDLE_EMU; EvMapLookup id_flow_map; EvKtime;
             EvMapUpdate id_flow_map; EvTailCall 0]) /\
  loss_bps Div0Zero ∅ (Scenario.emu (HandleEmu 0 0 0 0)) (Helpers 1000 0)
    (TcState (Scenario.small_packet 0) (Scenario.flow_map_with 3000001000) [])
  = Some (TC_ACT_SHOT,
          TcState (Scenario.small_packet 0) (Scenario.flow_map_with 3000001000)
            [EvMapLookup id_MAC_HANDLE_EMU; EvMapLookup id_flow_map; EvKtime]).
Proof.
  split.
  { intros progs h key s.
    unfold throttle_flow, lookup_flow_map, read_skb, bind, log, get, ret, lift_option.
    reflexivity. }
  repeat split; vm_compute; reflexivity.
Qed.

(** In the branch with a backlog a refused table update shoots the packet
    (lines 151-153). *)
Lemma backlog_failed_write_drops pol progs h key rate s :
  rate <> 0 ->
  let now := ktime_ns h in
  let base := departure (st_skb s) now in
  let duration := u64 (u64 (skb_len (st_skb s) * 8) * NS_PER_SEC) / rate in
  let next := candidate_next (map_lookup_elem (st_flow_map s) key) base duration in
  base < next ->
  u64 (next - now) < TIME_HORIZON_NS ->
  (map_update_elem (st_flow_map s) key next BPF_ANY).1 <> 0 ->
  exists s', throttle_flow pol progs h key rate s = Some (TC_ACT_SHOT, s') /\
             st_skb s' = st_skb s.
Proof.
  intros Hrate now base duration next Hbacklog Hnear Hfail.
  rewrite (throttle_flow_run pol progs h key rate s duration)
    by (by apply udiv64_nonzero).
  fold now. fold base. fold next.
  destruct (Z.leb_spec next base) as [? | _]; [lia |].
  destruct (Z.leb_spec TIME_HORIZON_NS (u64 (next - now))) as [? | _]; [lia |].
  cbv zeta.
  destruct (Z.eqb_spec (map_update_elem (st_flow_map s) key next BPF_ANY).1 0)
    as [? | _]; [done |].
  cbn [negb]. eauto.
Qed.

(** In the branch without a backlog the answer does not depend on what the
    table update returned (lines 136-145). *)
Lemma idle_branch_result pol (progs : prog_array) h key rate s dur :
  throttle_delay_ns pol (skb_len (st_skb s)) rate = Some dur ->
  candidate_next (map_lookup_elem (st_flow_map s) key)
    (departure (st_skb s) (ktime_ns h)) dur <= departure (st_skb s) (ktime_ns h) ->
  progs !! 0 = None ->
  throttle_flow pol progs h key rate s
  = Some (TC_ACT_OK,
          TcState (st_skb s)
            (map_update_elem (st_flow_map s) key
               (u64 (departure (st_skb s) (ktime_ns h) + dur)) BPF_ANY).2
            (st_trace s ++ [EvMapLookup id_flow_map; EvKtime;
                            EvMapUpdate id_flow_map; EvTailCall 0])).
Proof.
  intros Hd Hidle Hslot.
  rewrite (throttle_flow_run pol progs h key rate s dur Hd). cbv zeta.
  destruct (Z.leb_spec
              (candidate_next (map_lookup_elem (st_flow_map s) key)
                 (departure (st_skb s) (ktime_ns h)) dur)
              (departure (st_skb s) (ktime_ns h))) as [_ | ?]; [| lia].
  rewrite (bpf_tail_call_empty _ _ _ _ Hslot). unfold ret, traced.
  cbn [st_skb st_flow_map st_trace]. by rewrite <- app_assoc.
Qed.

(** The scenario: the flow has the entry [Scenario.spec], whose loss rate is
    0, so [loss_bps] hands the packet to the pacing stage at 1,000,000 bps. *)
Lemma scenario_loss_bps pol h b fm tr :
  skb_data b = Scenario.frame Scenario.mac_dst 1500 ->
  skb_ifindex b = 3 ->
  loss_bps pol ∅ (Scenario.emu Scenario.spec) h (TcState b fm tr)
  = throttle_flow pol ∅ h Scenario.key 1000000
      (TcState b fm (tr ++ [EvMapLookup id_MAC_HANDLE_EMU])).
Proof.
  intros Hdata Hif.
  assert (Hparse : parse_ethhdr (skb_data (st_skb (TcState b fm tr)))
                   = Some (ethhdr_at (Scenario.frame Scenario.mac_dst 1500))).
  { cbn [st_skb]. rewrite Hdata. vm_compute. reflexivity. }
  rewrite (loss_bps_run pol ∅ _ h _ _ Hparse). cbv zeta. cbn [st_skb]. rewrite Hif.
  reflexivity.
Qed.

Lemma scenario_delay_jitter h b fm tr :
  skb_data b = Scenario.frame Scenario.mac_dst 1500 ->
  skb_ifindex b = 3 ->
  delay_jitter (Scenario.emu Scenario.spec) h (TcState b fm tr)
  = Some (TC_ACT_OK,
          TcState (stamped b (u64 ((if skb_tstamp b =? 0 then ktime_ns h else skb_tstamp b)
                                   + 1000000)))
                  fm (tr ++ [EvMapLookup id_MAC_HANDLE_EMU; EvKtime])).
Proof.
  intros Hdata Hif.
  assert (Hparse : parse_ethhdr (skb_data (st_skb (TcState b fm tr)))
                   = Some (ethhdr_at (Scenario.frame Scenario.mac_dst 1500))).
  { cbn [st_skb]. rewrite Hdata. vm_compute. reflexivity. }
  rewrite (delay_jitter_run _ h _ _ Hparse). cbv zeta. cbn [st_skb st_flow_map st_trace].
  rewrite Hif.
  change (map_lookup_elem (Scenario.emu Scenario.spec) _) with (Some Scenario.spec).
  cbv iota beta.
  change (delay_ns_of (delay Scenario.spec)) with 1000000.
  change (jitter_offset h (jitter Scenario.spec)) with 0.
  change (0 <? jitter_ns_of (jitter Scenario.spec)) with false. cbv iota.
  by rewrite Z.add_0_r.
Qed.

(** C2 (the code departs from the claim).  In the branch without a
    backlog the result of the table update is not looked at (line 141).  A
    1500-byte packet of the scenario's flow whose stamp is the largest
    64-bit value, meeting a pacing table that is full of other flows: the
    candidate time wraps around to 11,999,999, the branch without a backlog
    is taken, the update is refused with -E2BIG, and the program still makes
    the tail call and answers TC_ACT_OK, the table unchanged. *)
Theorem idle_branch_ignores_failed_write :
  map_update_elem Scenario.full_flow_map Scenario.key 11999999 BPF_ANY
  = (- E2BIG, Scenario.full_flow_map) /\
  loss_bps Div0Undefined ∅ (Scenario.emu Scenario.spec) (Helpers 1000 0)
    (TcState (Scenario.packet (2 ^ 64 - 1)) Scenario.full_flow_map [])
  = Some (TC_ACT_OK,
          TcState (Scenario.packet (2 ^ 64 - 1)) Scenario.full_flow_map
            [EvMapLookup id_MAC_HANDLE_EMU; EvMapLookup id_flow_map; EvKtime;
             EvMapUpdate id_flow_map; EvTailCall 0]).
Proof.
  split; [apply full_flow_map_refuses_key |].
  assert (Hbase : departure (Scenario.packet (2 ^ 64 - 1)) (ktime_ns (Helpers 1000 0))
                  = 2 ^ 64 - 1) by (vm_compute; reflexivity).
  rewrite scenario_loss_bps by reflexivity. cbn [app].
  rewrite (idle_branch_result Div0Undefined ∅ (Helpers 1000 0) Scenario.key 1000000
             (TcState (Scenario.packet (2 ^ 64 - 1)) Scenario.full_flow_map
                [EvMapLookup id_MAC_HANDLE_EMU])
             12000000).
  - cbn [st_skb st_flow_map st_trace app]. rewrite Hbase.
    replace (u64 (2 ^ 64 - 1 + 12000000)) with 11999999 by (vm_compute; reflexivity).
    by rewrite full_flow_map_refuses_key.
  - cbn [st_skb]. vm_compute. reflexivity.
  - cbn [st_skb st_flow_map]. rewrite Hbase, full_flow_map_lookup_key.
    vm_compute. discriminate.
  - apply lookup_empty.
Qed.

(** ** Delay and jitter *)

Lemma jitter_offset_range h jitter :
  0 <= prandom_u32 h ->
  - jitter_ns_of jitter <= jitter_offset h jitter <= jitter_ns_of jitter.
Proof.
  intros Hrand. unfold jitter_offset.
  pose proof (u32_range (jitter * NS_PER_0_0_1_MS)) as Hj.
  fold (jitter_ns_of jitter) in Hj.
  destruct (Z.ltb_spec 0 (jitter_ns_of jitter)) as [Hpos | Hzero]; [| lia].
  unfold random_jitter_of.
  rewrite (u64_small (2 * jitter_ns_of jitter + 1)) by lia.
  pose proof (Z.mod_pos_bound (prandom_u32 h) (2 * jitter_ns_of jitter + 1)) as Hm.
  rewrite s64_u64_small by lia. lia.
Qed.

(** Within the 32-bit range of the conversion, and as long as the 64-bit
    clock does not wrap, a packet with an unset stamp leaves within
    [delay - jitter, delay + jitter] of its arrival. *)
Lemma delay_jitter_window emu h s eth val :
  parse_ethhdr (skb_data (st_skb s)) = Some eth ->
  map_lookup_elem emu (FlowKey (skb_ifindex (st_skb s)) (h_source eth)) = Some val ->
  wf_helpers h ->
  0 <= delay val -> delay val * 10000 < 2 ^ 32 ->
  0 <= jitter val -> jitter val * 10000 < 2 ^ 32 ->
  skb_tstamp (st_skb s) = 0 ->
  jitter val * 10000 <= ktime_ns h < 2 ^ 63 ->
  exists s', delay_jitter emu h s = Some (TC_ACT_OK, s') /\
    delay val * 10000 - jitter val * 10000
      <= skb_tstamp (st_skb s') - ktime_ns h
      <= delay val * 10000 + jitter val * 10000.
Proof.
  intros Hparse Hval [_ [Hr _]] Hd0 Hd1 Hj0 Hj1 Hts Hnow.
  rewrite (delay_jitter_run _ _ _ _ Hparse), Hval. cbv zeta.
  eexists. split; [reflexivity |].
  cbn [st_skb stamped skb_tstamp]. rewrite Hts. cbn [Z.eqb].
  pose proof (jitter_offset_range h (jitter val) Hr) as Hoff.
  unfold delay_ns_of, jitter_ns_of, NS_PER_0_0_1_MS in *.
  rewrite (u32_small (delay val * 10000)) by lia.
  rewrite (u32_small (jitter val * 10000)) in Hoff by lia.
  rewrite u64_small by lia. lia.
Qed.

(** C3 (as amended).  For a packet with a well-formed header whose flow
    has an impairment entry, with a delay and a jitter whose conversion to
    nanoseconds (times 10,000) fits 32 bits, [delay_jitter] answers
    TC_ACT_OK, leaves the pacing table alone, and stamps the packet with
    base + delay x 10,000 + jitter offset in 64-bit arithmetic.  The jitter
    offset is 0 without jitter, and otherwise the draw reduced modulo
    2 x jitter_ns + 1 with jitter_ns = jitter x 10,000 subtracted.  The base
    is the stamp the packet carried whenever that stamp is nonzero (be it
    ahead of the clock or behind it), and the present only when the stamp is
    zero. *)
Theorem delay_jitter_base_is_any_nonzero_stamp
    (emu : hash_map flow_key handle_emu) (h : helpers) (s : tc_state)
    (eth : ethhdr) (val : handle_emu) :
  parse_ethhdr (skb_data (st_skb s)) = Some eth ->
  map_lookup_elem emu (FlowKey (skb_ifindex (st_skb s)) (h_source eth)) = Some val ->
  0 <= delay val -> delay val * 10000 < 2 ^ 32 ->
  0 <= jitter val -> jitter val * 10000 < 2 ^ 32 ->
  exists s',
    delay_jitter emu h s = Some (TC_ACT_OK, s') /\
    st_flow_map s' = st_flow_map s /\
    st_skb s' = stamped (st_skb s) (skb_tstamp (st_skb s')) /\
    skb_tstamp (st_skb s')
    = u64 ((if skb_tstamp (st_skb s) =? 0 then ktime_ns h else skb_tstamp (st_skb s))
           + delay val * 10000
           + (if 0 <? jitter val
              then prandom_u32 h mod (2 * (jitter val * 10000) + 1) - jitter val * 10000
              else 0)).
Proof.
  intros Hparse Hval Hd0 Hd1 Hj0 Hj1.
  rewrite (delay_jitter_run _ _ _ _ Hparse), Hval. cbv zeta.
  eexists. split; [reflexivity |].
  cbn [st_skb st_flow_map stamped skb_tstamp].
  split; [reflexivity |]. split; [reflexivity |].
  unfold delay_ns_of, jitter_offset, jitter_ns_of, random_jitter_of, NS_PER_0_0_1_MS.
  rewrite (u32_small (delay val * 10000)) by lia.
  rewrite (u32_small (jitter val * 10000)) by lia.
  destruct (Z.ltb_spec 0 (jitter val)) as [Hpos | Hzero].
  - destruct (Z.ltb_spec 0 (jitter val * 10000)) as [_ | ?]; [| lia].
    rewrite (u64_small (2 * (jitter val * 10000) + 1)) by lia.
    pose proof (Z.mod_pos_bound (prandom_u32 h) (2 * (jitter val * 10000) + 1)) as Hm.
    rewrite s64_u64_small by lia. reflexivity.
  - destruct (Z.ltb_spec 0 (jitter val * 10000)) as [? | _]; [lia | reflexivity].
Qed.

(** A packet that carries the stale stamp 7 while the clock reads 5000, on a
    flow with delay 100 (1 ms) and jitter 30 (0.3 ms), at the draw 77: the
    base is the stale stamp, and the new stamp is 7 + 1,000,000 + (77 -
    300,000). *)
Lemma delay_jitter_base_is_any_nonzero_stamp_witness :
  exists s',
    delay_jitter (Scenario.emu (HandleEmu 1000000 100 0 30)) (Helpers 5000 77)
      (TcState (Scenario.small_packet 7) flow_map_init [])
    = Some (TC_ACT_OK, s') /\
    skb_tstamp (st_skb s') = 700084.
Proof.
  destruct (delay_jitter_base_is_any_nonzero_stamp
              (Scenario.emu (HandleEmu 1000000 100 0 30)) (Helpers 5000 77)
              (TcState (Scenario.small_packet 7) flow_map_init [])
              (ethhdr_at (Scenario.frame Scenario.mac_dst 64))
              (HandleEmu 1000000 100 0 30))
    as (s' & Hrun & _ & _ & Hstamp).
  - reflexivity.
  - reflexivity.
  - simpl. lia.
  - simpl. lia.
  - simpl. lia.
  - simpl. lia.
  - exists s'. split; [exact Hrun |]. rewrite Hstamp. reflexivity.
Defined.

(** C3, as stated, fails: a packet that carries the stale stamp 5 while the
    clock reads 100 (delay 0.01 ms, no jitter) is stamped 5 + 10,000, not
    100 + 10,000. *)
Lemma delay_jitter_stale_stamp_counterexample :
  exists s',
    delay_jitter (Scenario.emu (HandleEmu 0 1 0 0)) (Helpers 100 0)
      (TcState (Scenario.small_packet 5) flow_map_init [])
    = Some (TC_ACT_OK, s') /\
    skb_tstamp (st_skb s') = 10005 /\
    skb_tstamp (st_skb s')
    <> u64 ((if negb (5 =? 0) && (100 <? 5) then 5 else 100)
            + delay_ns_of 1 + jitter_offset (Helpers 100 0) 0).
Proof.
  eexists. split; [vm_compute; reflexivity |]. split; [reflexivity |].
  vm_compute. discriminate.
Qed.

(** C5 (the code departs from the claim).  The conversion of the delay to
    nanoseconds is a 32-bit product: a delay of 429497 (about 4.29 s) is
    converted to 2,704 ns instead of 4,294,970,000 ns, and a packet with an
    unset stamp arriving at 1,000,000 leaves 2,704 ns later. *)
Theorem delay_conversion_wraps_at_32_bits :
  429497 * 10000 = 4294970000 /\
  delay_ns_of 429497 = 2704 /\
  delay_jitter (Scenario.emu (HandleEmu 0 429497 0 0)) (Helpers 1000000 0)
    (TcState (Scenario.small_packet 0) flow_map_init [])
  = Some (TC_ACT_OK,
          TcState (Scenario.small_packet (1000000 + 2704)) flow_map_init
            [EvMapLookup id_MAC_HANDLE_EMU; EvKtime]).
Proof. repeat split; vm_compute; reflexivity. Qed.

(** ** Forwarding *)

Lemma land_1_testbit x : (Z.land x 1 =? 0) = negb (Z.testbit x 0).
Proof.
  change 1 with (Z.ones 1). rewrite Z.land_ones by lia.
  change (2 ^ 1) with 2.
  rewrite Z.bit0_odd, Zmod_odd. by destruct (Z.odd x).
Qed.

Lemma first_dest_byte data :
  (ETH_HLEN <= length data)%nat ->
  nth 0 (h_dest (ethhdr_at data)) 0 = nth 0 data 0.
Proof. destruct data as [| b data]; [simpl; lia | done]. Qed.

(** C7 (as amended).  For a packet with a well-formed ethernet header: when
    the low-order bit of the first destination byte is 1 the packet is
    flooded to every interface of the egress port set but the ingress
    interface, and the forwarding table is not consulted; otherwise, when
    the destination is in the forwarding table, the packet is redirected to
    the configured egress interface and to no other provided that
    interface is in the egress port set, and is not forwarded at all
    (XDP_ABORTED) when it is not; otherwise the packet is handed to default
    delivery. *)
Theorem forward_disposition
    (mac_table : hash_map (list Z) Z) (tx_ports : Xdp.devmap) (ctx : Xdp.xdp_md) :
  (ETH_HLEN <= length (Xdp.data ctx))%nat ->
  if Z.testbit (nth 0 (Xdp.data ctx) 0) 0 then
    Xdp.forward mac_table tx_ports ctx
    = Some (Xdp.FloodedTo (Xdp.ports tx_ports ∖ {[ Xdp.ingress_ifindex ctx ]}),
            [EvRedirectMap id_tx_ports])
  else
    match map_lookup_elem mac_table (take 6 (Xdp.data ctx)) with
    | Some d =>
        if bool_decide (d ∈ Xdp.ports tx_ports) then
          Xdp.forward mac_table tx_ports ctx
          = Some (Xdp.RedirectedTo d, [EvMapLookup id_mac_table; EvRedirectMap id_tx_ports])
        else
          Xdp.forward mac_table tx_ports ctx
          = Some (Xdp.Dropped, [EvMapLookup id_mac_table; EvRedirectMap id_tx_ports])
    | None =>
        Xdp.forward mac_table tx_ports ctx
        = Some (Xdp.DefaultDelivery, [EvMapLookup id_mac_table])
    end.
Proof.
  intros Hlen. unfold Xdp.forward, Xdp.xdp_l2_fwd_prog.
  destruct (Nat.ltb_spec (length (Xdp.data ctx)) ETH_HLEN) as [? | _]; [lia |].
  rewrite (first_dest_byte _ Hlen), land_1_testbit, negb_involutive.
  destruct (Z.testbit (nth 0 (Xdp.data ctx) 0) 0).
  - unfold Xdp.bpf_redirect_map, bind, Xdp.log, Xdp.set_redirect, ret.
    cbn [Xdp.xs_redirect Xdp.xs_trace Xdp.xdp_init negb].
    change (negb (Z.land (Z.lor Xdp.BPF_F_BROADCAST Xdp.BPF_F_EXCLUDE_INGRESS) _ =? 0))
      with false. cbv iota.
    change (Z.land (Z.lor Xdp.BPF_F_BROADCAST Xdp.BPF_F_EXCLUDE_INGRESS)
              Xdp.BPF_F_BROADCAST =? 0) with false.
    rewrite andb_false_r. reflexivity.
  - unfold Xdp.lookup_mac_table, bind, Xdp.log, ret. cbn [h_dest ethhdr_at].
    change (take ETH_ALEN (Xdp.data ctx)) with (take 6 (Xdp.data ctx)).
    destruct (map_lookup_elem mac_table (take 6 (Xdp.data ctx))) as [d |]; [| done].
    unfold Xdp.bpf_redirect_map, bind, Xdp.log, Xdp.set_redirect, ret.
    cbn [Xdp.xs_redirect Xdp.xs_trace].
    change (negb (Z.land 0 _ =? 0)) with false. cbv iota.
    change (Z.land 0 Xdp.BPF_F_BROADCAST =? 0) with true.
    rewrite andb_true_r.
    destruct (bool_decide (d ∈ Xdp.ports tx_ports)); reflexivity.
Qed.

Lemma forward_disposition_witness :
  Xdp.forward (Scenario.mac_table_with 5) (Xdp.DevMap 1024 {[ 4; 5 ]})
    (Xdp.XdpMd (Scenario.frame Scenario.mac_dst 64) 3)
  = Some (Xdp.RedirectedTo 5, [EvMapLookup id_mac_table; EvRedirectMap id_tx_ports]).
Proof.
  pose proof (forward_disposition (Scenario.mac_table_with 5) (Xdp.DevMap 1024 {[ 4; 5 ]})
                (Xdp.XdpMd (Scenario.frame Scenario.mac_dst 64) 3)) as H.
  apply H. vm_compute. lia.
Defined.

(** C7, as stated, fails: the destination is in the forwarding table, with
    egress interface 5, but 5 is not in the egress port set; the packet is
    not redirected to interface 5. *)
Lemma known_unicast_outside_port_set_counterexample :
  Z.testbit (nth 0 (Scenario.frame Scenario.mac_dst 64) 0) 0 = false /\
  map_lookup_elem (Scenario.mac_table_with 5) (take 6 (Scenario.frame Scenario.mac_dst 64))
  = Some 5 /\
  Xdp.forward (Scenario.mac_table_with 5) (Xdp.DevMap 1024 {[ 4 ]})
    (Xdp.XdpMd (Scenario.frame Scenario.mac_dst 64) 3)
  = Some (Xdp.Dropped, [EvMapLookup id_mac_table; EvRedirectMap id_tx_ports]) /\
  ~ (exists tr, Xdp.forward (Scenario.mac_table_with 5) (Xdp.DevMap 1024 {[ 4 ]})
                  (Xdp.XdpMd (Scenario.frame Scenario.mac_dst 64) 3)
                = Some (Xdp.RedirectedTo 5, tr)).
Proof.
  assert (Hrun : Xdp.forward (Scenario.mac_table_with 5) (Xdp.DevMap 1024 {[ 4 ]})
                   (Xdp.XdpMd (Scenario.frame Scenario.mac_dst 64) 3)
                 = Some (Xdp.Dropped, [EvMapLookup id_mac_table; EvRedirectMap id_tx_ports]))
    by (vm_compute; reflexivity).
  split; [reflexivity |]. split; [reflexivity |]. split; [exact Hrun |].
  rewrite Hrun. intros [tr [=]].
Qed.

(** A broadcast frame that enters on interface 3 goes to the ports 4 and 5
    and not back to 3; an unknown unicast destination is left to the stack. *)
Example broadcast_is_flooded :
  Xdp.forward (Scenario.mac_table_with 5) (Xdp.DevMap 1024 {[ 3; 4; 5 ]})
    (Xdp.XdpMd (Scenario.frame Scenario.mac_bcast 64) 3)
  = Some (Xdp.FloodedTo ({[ 3; 4; 5 ]} ∖ {[ 3 ]}), [EvRedirectMap id_tx_ports]) /\
  ({[ 3; 4; 5 ]} ∖ {[ 3 ]} : gset Z) = {[ 4; 5 ]}.
Proof. split; [vm_compute; reflexivity | set_solver]. Qed.

Example unknown_unicast_is_passed :
  Xdp.forward Xdp.mac_table_init (Xdp.DevMap 1024 {[ 3; 4; 5 ]})
    (Xdp.XdpMd (Scenario.frame Scenario.mac_dst 64) 3)
  = Some (Xdp.DefaultDelivery, [EvMapLookup id_mac_table]).
Proof. vm_compute. reflexivity. Qed.

(** ** Capacities *)

Section capacity.
Context {K : Type} `{Countable K} {V : Type}.
Implicit Types (m : hash_map K V) (k : K) (v : V).

Lemma map_update_elem_max_entries m k v flags :
  max_entries (map_update_elem m k v flags).2 = max_entries m.
Proof.
  unfold map_update_elem.
  repeat (case_match; try done).
Qed.

Lemma map_update_elem_within m k v flags :
  within_capacity m -> within_capacity (map_update_elem m k v flags).2.
Proof.
  unfold within_capacity, entries, map_update_elem. intros Hm.
  destruct (BPF_EXIST <? flags); [done |].
  destruct (table m !! k) as [old |] eqn:Hk.
  - destruct (flags =? BPF_NOEXIST); [done |]. cbn [snd table max_entries].
    by rewrite map_size_insert_Some by (by rewrite Hk).
  - destruct (flags =? BPF_EXIST); [done |].
    destruct (Z.leb_spec (max_entries m) (Z.of_nat (size (table m)))); [done |].
    cbn [snd table max_entries]. rewrite map_size_insert_None by done. lia.
Qed.

Lemma map_delete_elem_within m k :
  within_capacity m -> within_capacity (map_delete_elem m k).2.
Proof.
  unfold within_capacity, entries, map_delete_elem. intros Hm.
  destruct (table m !! k) as [old |] eqn:Hk; [| done].
  cbn [snd table max_entries]. rewrite map_size_delete_Some by (by rewrite Hk). lia.
Qed.

Lemma apply_ops_within m ops :
  within_capacity m ->
  within_capacity (apply_ops m ops) /\ max_entries (apply_ops m ops) = max_entries m.
Proof.
  unfold apply_ops. revert m.
  induction ops as [| o ops IH]; intros m Hm; [done |].
  cbn [foldl].
  destruct (IH (apply_op m o)) as [Hw Hmax].
  - destruct o; [by apply map_update_elem_within | by apply map_delete_elem_within].
  - split; [done |]. rewrite Hmax.
    destruct o; cbn [apply_op]; [apply map_update_elem_max_entries |].
    unfold map_delete_elem. by destruct (table m !! k).
Qed.

Lemma empty_within n : 0 <= n -> within_capacity (HashMap (K := K) (V := V) n ∅).
Proof. unfold within_capacity, entries. cbn [table max_entries]. by rewrite map_size_empty. Qed.

Lemma apply_ops_from_empty n ops :
  0 <= n -> entries (apply_ops (HashMap (K := K) (V := V) n ∅) ops) <= n.
Proof.
  intros Hn. destruct (apply_ops_within (HashMap n ∅) ops (empty_within n Hn)) as [Hw Hmax].
  unfold within_capacity in Hw. by rewrite Hmax in Hw.
Qed.
End capacity.

(** C9 (as amended).  Every table is declared with a fixed capacity and
    never holds more entries than that, whatever sequence of updates and
    deletions it is put through: the forwarding table [mac_table] of the
    forwarding program at most 65,535; the flow-impairment table
    [MAC_HANDLE_EMU] and the pacing table [flow_map] at most 65,535 each; the
    [fdb_map] of the header, like the egress port set, is declared with
    1,024.  The pacing table, the one table the fast path writes, stays
    within 65,535 entries over a run of [loss_bps]. *)
Theorem tables_are_bounded_by_max_entries :
  Xdp.mac_table_max_entries = 65535 /\
  MAC_HANDLE_EMU_max_entries = 65535 /\
  flow_map_max_entries = 65535 /\
  Xdp.tx_ports_max_entries = 1024 /\
  Xdp.fdb_map_max_entries = 1024 /\
  (forall ops, entries (apply_ops Xdp.mac_table_init ops) <= 65535) /\
  (forall ops, entries (apply_ops MAC_HANDLE_EMU_init ops) <= 65535) /\
  (forall ops, entries (apply_ops flow_map_init ops) <= 65535) /\
  (forall ops, entries (apply_ops Xdp.fdb_map_init ops) <= 1024) /\
  (forall ops pol emu h skb tr,
     match loss_bps pol ∅ emu h (TcState skb (apply_ops flow_map_init ops) tr) with
     | Some (_, s') => entries (st_flow_map s') <= 65535
     | None => True
     end).
Proof.
  do 5 (split; [reflexivity |]).
  split; [intros ops; by apply apply_ops_from_empty |].
  split; [intros ops; by apply apply_ops_from_empty |].
  split; [intros ops; by apply apply_ops_from_empty |].
  split; [intros ops; by apply apply_ops_from_empty |].
  intros ops pol emu h skb tr.
  destruct (apply_ops_within flow_map_init ops) as [Hw Hmax];
    [by apply empty_within |].
  set (fm := apply_ops flow_map_init ops) in *.
  change (max_entries flow_map_init) with 65535 in Hmax.
  assert (Hupd : forall k v, entries (map_update_elem fm k v BPF_ANY).2 <= 65535).
  { intros k v. pose proof (map_update_elem_within fm k v BPF_ANY Hw) as Hu.
    unfold within_capacity in Hu.
    by rewrite map_update_elem_max_entries, Hmax in Hu. }
  unfold within_capacity in Hw. rewrite Hmax in Hw.
  destruct (parse_ethhdr (skb_data skb)) as [eth |] eqn:Hparse.
  - rewrite (loss_bps_run pol ∅ emu h (TcState skb fm tr) eth Hparse).
    cbv zeta. cbn [st_skb].
    assert (Hthr : forall key rate evs,
               match throttle_flow pol ∅ h key rate (traced (TcState skb fm tr) evs) with
               | Some (_, s') => entries (st_flow_map s') <= 65535
               | None => True
               end).
    { intros key rate evs.
      destruct (throttle_delay_ns pol (skb_len skb) rate) as [dur |] eqn:Hd.
      - rewrite (throttle_flow_run pol ∅ h key rate _ dur) by exact Hd.
        cbv zeta. cbn [traced st_skb st_flow_map st_trace].
        rewrite !bpf_tail_call_empty by apply lookup_empty.
        unfold ret. repeat case_match; simplify_eq; cbn [st_flow_map traced]; auto.
      - unfold throttle_flow, lookup_flow_map, read_skb, bind, log, get, ret, lift_option.
        cbn [traced st_skb]. by rewrite Hd. }
    destruct (map_lookup_elem emu _) as [val |]; [| done].
    repeat case_match; simplify_eq; cbn [st_flow_map traced]; auto;
      match goal with
      | Hrun : throttle_flow _ _ _ ?key ?rate (traced _ ?evs) = _ |- _ =>
          pose proof (Hthr key rate evs) as Hb; by rewrite Hrun in Hb
      end.
  - unfold loss_bps, bind, read_skb. cbn [st_skb]. by rewrite Hparse.
Qed.

(** C9, as stated, fails for the forwarding table: 1,025 addresses can be
    learnt. *)
Lemma mac_table_exceeds_1024_counterexample :
  entries (apply_ops Xdp.mac_table_init (Scenario.learn 1025)) = 1025 /\
  ~ entries (apply_ops Xdp.mac_table_init (Scenario.learn 1025)) <= 1024.
Proof.
  assert (H : entries (apply_ops Xdp.mac_table_init (Scenario.learn 1025)) = 1025)
    by (vm_compute; reflexivity).
  split; [exact H |]. rewrite H. lia.
Qed.

(** ** Pacing *)

Lemma map_update_elem_any_result {K V} `{Countable K} (m : hash_map K V) k v :
  (map_update_elem m k v BPF_ANY).1 = 0 ->
  map_lookup_elem (map_update_elem m k v BPF_ANY).2 k = Some v.
Proof.
  unfold map_update_elem, map_lookup_elem.
  change (BPF_EXIST <? BPF_ANY) with false. change (BPF_ANY =? BPF_EXIST) with false.
  change (BPF_ANY =? BPF_NOEXIST) with false. cbv iota.
  destruct (table m !! k).
  - intros _. cbn [snd table]. apply lookup_insert_eq.
  - destruct (max_entries m <=? Z.of_nat (size (table m))); [done |].
    intros _. cbn [snd table]. apply lookup_insert_eq.
Qed.

Lemma map_update_elem_any_present {K V} `{Countable K} (m : hash_map K V) k v old :
  map_lookup_elem m k = Some old ->
  (map_update_elem m k v BPF_ANY).1 = 0.
Proof.
  unfold map_update_elem, map_lookup_elem. intros ->. reflexivity.
Qed.

(** What a run of the pacing stage that lets the packet through leaves
    behind, as long as no 64-bit sum wraps: the flow has a pacing entry, it
    is not earlier than the departure of the packet, and the packet departs
    no earlier than one duration after the entry it found. *)
Lemma throttle_flow_ok_inv pol h key rate s dur s' :
  throttle_delay_ns pol (skb_len (st_skb s)) rate = Some dur ->
  0 < dur ->
  0 <= ktime_ns h ->
  0 <= skb_tstamp (st_skb s) ->
  departure (st_skb s) (ktime_ns h) + dur < 2 ^ 64 ->
  (forall last, map_lookup_elem (st_flow_map s) key = Some last ->
                0 <= last /\ last + dur < 2 ^ 64) ->
  throttle_flow pol ∅ h key rate s = Some (TC_ACT_OK, s') ->
  exists e,
    map_lookup_elem (st_flow_map s') key = Some e /\
    departure (st_skb s') (ktime_ns h) <= e /\
    (e = departure (st_skb s) (ktime_ns h) + dur \/
     exists last, map_lookup_elem (st_flow_map s) key = Some last /\ e = last + dur) /\
    departure (st_skb s) (ktime_ns h) <= departure (st_skb s') (ktime_ns h) /\
    skb_tstamp (st_skb s) <= skb_tstamp (st_skb s') /\
    (forall last, map_lookup_elem (st_flow_map s) key = Some last ->
                  last + dur <= departure (st_skb s') (ktime_ns h)).
Proof.
  intros Hd Hdur Hnow Hts Hbase Hlast.
  rewrite (throttle_flow_run pol ∅ h key rate s dur Hd). cbv zeta.
  rewrite !bpf_tail_call_empty by apply lookup_empty. unfold ret.
  set (now := ktime_ns h) in *.
  set (base := departure (st_skb s) now) in *.
  assert (Hb : now <= base /\ skb_tstamp (st_skb s) <= base).
  { unfold base, departure. destruct (Z.ltb_spec (skb_tstamp (st_skb s)) now); lia. }
  destruct (map_lookup_elem (st_flow_map s) key) as [last |] eqn:Hl;
    cbn [candidate_next].
  - destruct (Hlast last eq_refl) as [Hl0 Hl1].
    rewrite (u64_small (last + dur)) by lia.
    rewrite (u64_small (base + dur)) by lia.
    destruct (Z.leb_spec (last + dur) base) as [Hidle | Hbacklog].
    + intros [= <-]. cbn [st_skb st_flow_map traced]. fold base.
      exists (base + dur). split.
      { apply map_update_elem_any_result. by eapply map_update_elem_any_present. }
      split; [lia |]. split; [by left |]. split; [lia |]. split; [lia |].
      intros ? [= <-]. lia.
    + destruct (TIME_HORIZON_NS <=? u64 (last + dur - now)); [done |].
      destruct (Z.eqb_spec (map_update_elem (st_flow_map s) key (last + dur) BPF_ANY).1 0)
        as [Hrc | _]; [| done].
      cbn [negb]. intros [= <-]. cbn [st_skb st_flow_map traced].
      assert (Hdep : departure (stamped (st_skb s) (last + dur)) now = last + dur).
      { unfold departure, stamped. cbn [skb_tstamp].
        destruct (Z.ltb_spec (last + dur) now); lia. }
      rewrite Hdep. exists (last + dur). split.
      { by apply map_update_elem_any_result. }
      split; [lia |]. split; [right; by exists last |]. split; [lia |].
      split; [cbn [stamped skb_tstamp]; lia |].
      intros ? [= <-]. lia.
  - rewrite (u64_small (base + dur)) by lia.
    destruct (Z.leb_spec (base + dur) base) as [? | _]; [lia |].
    destruct (TIME_HORIZON_NS <=? u64 (base + dur - now)); [done |].
    destruct (Z.eqb_spec (map_update_elem (st_flow_map s) key (base + dur) BPF_ANY).1 0)
      as [Hrc | _]; [| done].
    cbn [negb]. intros [= <-]. cbn [st_skb st_flow_map traced].
    assert (Hdep : departure (stamped (st_skb s) (base + dur)) now = base + dur).
    { unfold departure, stamped. cbn [skb_tstamp].
      destruct (Z.ltb_spec (base + dur) now); lia. }
    rewrite Hdep. exists (base + dur). split.
    { by apply map_update_elem_any_result. }
    split; [lia |]. split; [by left |]. split; [lia |].
    split; [cbn [stamped skb_tstamp]; lia | done].
Qed.

(** With a nonzero rate the pacing stage always comes to an answer. *)
Lemma throttle_flow_total pol (progs : prog_array) h key rate s :
  rate <> 0 -> progs !! 0 = None ->
  exists act s', throttle_flow pol progs h key rate s = Some (act, s').
Proof.
  intros Hrate Hslot.
  rewrite (throttle_flow_run pol progs h key rate s _ (udiv64_nonzero pol _ rate Hrate)).
  cbv zeta. rewrite !(bpf_tail_call_empty _ _ _ _ Hslot). unfold ret.
  repeat case_match; eauto.
Qed.

(** The scenario on concrete clocks: the first packet, stamped 1,005,000 by
    [delay_jitter], leaves the pacing stage at 13,005,000, the second one
    12,000,000 ns later; and the same first packet when the program array
    chains [delay_jitter] behind [loss_bps]. *)
Example scenario_first_packet :
  loss_bps Div0Undefined ∅ (Scenario.emu Scenario.spec) (Helpers 6000 0)
    (TcState (Scenario.packet 1005000) flow_map_init [])
  = Some (TC_ACT_OK,
          TcState (Scenario.packet 13005000) (Scenario.flow_map_with 13005000)
            [EvMapLookup id_MAC_HANDLE_EMU; EvMapLookup id_flow_map; EvKtime;
             EvMapUpdate id_flow_map; EvTailCall 0]).
Proof. vm_compute. reflexivity. Qed.

Example scenario_second_packet :
  loss_bps Div0Undefined ∅ (Scenario.emu Scenario.spec) (Helpers 9500 0)
    (TcState (Scenario.packet 1009000) (Scenario.flow_map_with 13005000) [])
  = Some (TC_ACT_OK,
          TcState (Scenario.packet 25005000) (Scenario.flow_map_with 25005000)
            [EvMapLookup id_MAC_HANDLE_EMU; EvMapLookup id_flow_map; EvKtime;
             EvMapUpdate id_flow_map; EvTailCall 0]).
Proof. vm_compute. reflexivity. Qed.

Example scenario_chained_by_tail_call :
  loss_bps Div0Undefined
    {[ 0 := delay_jitter (Scenario.emu Scenario.spec) (Helpers 5500 0) ]}
    (Scenario.emu Scenario.spec) (Helpers 5000 0)
    (TcState (Scenario.packet 0) flow_map_init [])
  = Some (TC_ACT_OK,
          TcState (Scenario.packet 13005000) (Scenario.flow_map_with 12005000)
            [EvMapLookup id_MAC_HANDLE_EMU; EvMapLookup id_flow_map; EvKtime;
             EvMapUpdate id_flow_map; EvTailCall 0;
             EvMapLookup id_MAC_HANDLE_EMU; EvKtime]).
Proof. vm_compute. reflexivity. Qed.

(** A write with BPF_ANY of a key the table does not hold succeeds while
    the table has room. *)
Lemma map_update_elem_any_room {K V} `{Countable K} (m : hash_map K V) k v :
  map_lookup_elem m k = None ->
  entries m < max_entries m ->
  (map_update_elem m k v BPF_ANY).1 = 0.
Proof.
  unfold map_update_elem, map_lookup_elem, entries. intros -> Hroom.
  change (BPF_EXIST <? BPF_ANY) with false. change (BPF_ANY =? BPF_EXIST) with false.
  cbv iota.
  destruct (Z.leb_spec (max_entries m) (Z.of_nat (size (table m)))); [lia | reflexivity].
Qed.

(** When the pacing stage lets a packet through: the duration is positive,
    no 64-bit sum wraps, and either the flow has a stored timestamp whose
    successor lies within the horizon, or the flow is new, the table has
    room and the packet's own departure plus its duration lies within the
    horizon. *)
Lemma throttle_flow_passes pol h key rate s dur :
  throttle_delay_ns pol (skb_len (st_skb s)) rate = Some dur ->
  0 < dur ->
  0 <= ktime_ns h ->
  departure (st_skb s) (ktime_ns h) + dur < 2 ^ 64 ->
  match map_lookup_elem (st_flow_map s) key with
  | Some last =>
      0 <= last /\ last + dur < 2 ^ 64 /\ last + dur < ktime_ns h + TIME_HORIZON_NS
  | None =>
      entries (st_flow_map s) < max_entries (st_flow_map s) /\
      departure (st_skb s) (ktime_ns h) + dur < ktime_ns h + TIME_HORIZON_NS
  end ->
  exists s', throttle_flow pol ∅ h key rate s = Some (TC_ACT_OK, s').
Proof.
  intros Hd Hdur Hnow Hbase Hfm.
  rewrite (throttle_flow_run pol ∅ h key rate s dur Hd). cbv zeta.
  rewrite !bpf_tail_call_empty by apply lookup_empty. unfold ret.
  set (now := ktime_ns h) in *.
  set (base := departure (st_skb s) now) in *.
  assert (Hb : now <= base).
  { unfold base, departure. destruct (Z.ltb_spec (skb_tstamp (st_skb s)) now); lia. }
  destruct (map_lookup_elem (st_flow_map s) key) as [last |] eqn:Hl;
    cbn [candidate_next].
  - destruct Hfm as (Hl0 & Hl1 & Hl2).
    rewrite (u64_small (last + dur)) by lia.
    destruct (Z.leb_spec (last + dur) base) as [Hidle | Hbacklog]; [by eexists |].
    rewrite (u64_small (last + dur - now)) by lia.
    destruct (Z.leb_spec TIME_HORIZON_NS (last + dur - now)) as [? | _]; [lia |].
    rewrite (map_update_elem_any_present _ _ _ _ Hl). cbn [Z.eqb negb]. by eexists.
  - destruct Hfm as (Hroom & Hhor).
    rewrite (u64_small (base + dur)) by lia.
    destruct (Z.leb_spec (base + dur) base) as [? | _]; [lia |].
    rewrite (u64_small (base + dur - now)) by lia.
    destruct (Z.leb_spec TIME_HORIZON_NS (base + dur - now)) as [? | _]; [lia |].
    rewrite (map_update_elem_any_room _ _ _ Hl Hroom). cbn [Z.eqb negb]. by eexists.
Qed.

(** C10 (as amended).  [throttle_flow] computes the transmission duration of
    a packet as length * 8 * 1e9 / rate, truncated toward zero (for every
    length whose bit count times 1e9 fits the 64-bit product, that is up to
    2,305,843,009 bytes); for 1500 bytes at 1,000,000 bps it is 12,000,000
    ns.  In the scenario (delay 100, no loss, no jitter), on a flow that is
    new while the pacing table has room, or whose stored timestamp plus two
    durations lies within the horizon of 2 s:
    - a packet that arrives unstamped at [t0] is stamped [t0] + 1 ms by
      [delay_jitter] and is let through by [loss_bps] (clock [t1]) with a
      stamp no earlier than [t0] + 1 ms;
    - the next unstamped packet of the flow ([delay_jitter] at [t2],
      [loss_bps] at [t3]) is let through as well, and departs -- at its
      stamp, or at the clock reading when the stamp is already past -- at
      least 12,000,000 ns after the previous one;
    - its stamp itself is at least 12,000,000 ns after the previous stamp
      when the pacing stage handles it within 1 ms of [delay_jitter]. *)
Theorem throttle_duration_and_scenario_pacing
    (pol : div0_policy) (len rate : Z)
    (fm : hash_map flow_key Z) (tr tr2 : list event)
    (t0 t1 t2 t3 r0 r1 r2 r3 : Z) :
  0 <= len -> len * 8 * 1000000000 < 2 ^ 64 -> 0 < rate ->
  0 <= t0 <= t1 -> t1 <= t2 -> t2 <= t3 < 2 ^ 62 ->
  match map_lookup_elem fm Scenario.key with
  | Some last => 0 <= last /\ last + 2 * 12000000 < t1 + 2000000000
  | None => entries fm < max_entries fm
  end ->
  throttle_delay_ns pol len rate = Some (len * 8 * 1000000000 / rate) /\
  len * 8 * 1000000000 / rate = Z.quot (len * 8 * 1000000000) rate /\
  throttle_delay_ns pol 1500 1000000 = Some 12000000 /\
  exists s0 s1 s2 s3,
    delay_jitter (Scenario.emu Scenario.spec) (Helpers t0 r0)
      (TcState (Scenario.packet 0) fm tr) = Some (TC_ACT_OK, s0) /\
    skb_tstamp (st_skb s0) = t0 + 1000000 /\
    loss_bps pol ∅ (Scenario.emu Scenario.spec) (Helpers t1 r1) s0
    = Some (TC_ACT_OK, s1) /\
    t0 + 1000000 <= skb_tstamp (st_skb s1) /\
    delay_jitter (Scenario.emu Scenario.spec) (Helpers t2 r2)
      (TcState (Scenario.packet 0) (st_flow_map s1) tr2) = Some (TC_ACT_OK, s2) /\
    skb_tstamp (st_skb s2) = t2 + 1000000 /\
    loss_bps pol ∅ (Scenario.emu Scenario.spec) (Helpers t3 r3) s2
    = Some (TC_ACT_OK, s3) /\
    departure (st_skb s1) t1 + 12000000 <= departure (st_skb s3) t3 /\
    (t3 <= t2 + 1000000 ->
     skb_tstamp (st_skb s1) + 12000000 <= skb_tstamp (st_skb s3)).
Proof.
  intros Hlen0 Hlen1 Hrate Ht01 Ht12 Ht23 Hfm.
  split.
  { unfold throttle_delay_ns. rewrite udiv64_nonzero by lia.
    rewrite u64_mul_l. unfold NS_PER_SEC. by rewrite u64_small by lia. }
  split; [symmetry; apply Z.quot_div_nonneg; lia |].
  split; [by destruct pol |].
  assert (Hdur : forall b, skb_len b = 1500 ->
                           throttle_delay_ns pol (skb_len b) 1000000 = Some 12000000).
  { intros b ->. by destruct pol. }
  assert (Hdj : forall t r fm' tr',
             0 <= t < 2 ^ 62 ->
             delay_jitter (Scenario.emu Scenario.spec) (Helpers t r)
               (TcState (Scenario.packet 0) fm' tr')
             = Some (TC_ACT_OK,
                     TcState (stamped (Scenario.packet 0) (t + 1000000)) fm'
                       (tr' ++ [EvMapLookup id_MAC_HANDLE_EMU; EvKtime]))).
  { intros t r fm' tr' Ht. rewrite scenario_delay_jitter by reflexivity.
    cbn [Scenario.packet skb_tstamp Z.eqb ktime_ns].
    by rewrite (u64_small (t + 1000000)) by lia. }
  (* the first packet *)
  set (b0 := stamped (Scenario.packet 0) (t0 + 1000000)).
  set (s0 := TcState b0 fm (tr ++ [EvMapLookup id_MAC_HANDLE_EMU; EvKtime])).
  set (s0' := TcState b0 fm ((tr ++ [EvMapLookup id_MAC_HANDLE_EMU; EvKtime])
                             ++ [EvMapLookup id_MAC_HANDLE_EMU])).
  assert (Hloss1 : loss_bps pol ∅ (Scenario.emu Scenario.spec) (Helpers t1 r1) s0
                   = throttle_flow pol ∅ (Helpers t1 r1) Scenario.key 1000000 s0').
  { unfold s0, s0'. by rewrite scenario_loss_bps by reflexivity. }
  assert (Hbase1 : t1 <= departure b0 t1 <= t1 + 1000000 /\
                   t0 + 1000000 <= departure b0 t1).
  { unfold departure, b0. cbn [stamped skb_tstamp].
    destruct (Z.ltb_spec (t0 + 1000000) t1); lia. }
  destruct (throttle_flow_passes pol (Helpers t1 r1) Scenario.key 1000000 s0' 12000000)
    as [s1 Hrun1].
  { by apply Hdur. }
  { lia. }
  { cbn [ktime_ns]. lia. }
  { unfold s0'. cbn [st_skb ktime_ns]. lia. }
  { unfold s0'. cbn [st_skb st_flow_map ktime_ns]. unfold TIME_HORIZON_NS.
    destruct (map_lookup_elem fm Scenario.key) as [last |]; lia. }
  destruct (throttle_flow_ok_inv pol (Helpers t1 r1) Scenario.key 1000000 s0'
              12000000 s1) as (e1 & He1 & Hde1 & Hcase1 & Hdd1 & Hst1 & _).
  { by apply Hdur. }
  { lia. }
  { cbn [ktime_ns]. lia. }
  { unfold s0', b0. cbn [st_skb stamped skb_tstamp]. lia. }
  { unfold s0'. cbn [st_skb ktime_ns]. lia. }
  { unfold s0'. cbn [st_flow_map]. intros last Hl. rewrite Hl in Hfm. lia. }
  { exact Hrun1. }
  cbn [ktime_ns] in Hde1, Hcase1, Hdd1.
  unfold s0' in Hcase1, Hdd1, Hst1. cbn [st_skb st_flow_map] in Hcase1, Hdd1, Hst1.
  unfold b0 in Hst1. cbn [stamped skb_tstamp] in Hst1.
  assert (He1b : t1 <= e1 /\ e1 + 12000000 < t1 + 2000000000).
  { destruct Hcase1 as [-> | (last & Hl & ->)]; [lia |].
    rewrite Hl in Hfm. lia. }
  assert (Hs1 : skb_tstamp (st_skb s1) <= departure (st_skb s1) t1).
  { unfold departure. destruct (Z.ltb_spec (skb_tstamp (st_skb s1)) t1); lia. }
  (* the next packet *)
  set (b2 := stamped (Scenario.packet 0) (t2 + 1000000)).
  set (s2 := TcState b2 (st_flow_map s1)
               (tr2 ++ [EvMapLookup id_MAC_HANDLE_EMU; EvKtime])).
  set (s2' := TcState b2 (st_flow_map s1)
                ((tr2 ++ [EvMapLookup id_MAC_HANDLE_EMU; EvKtime])
                 ++ [EvMapLookup id_MAC_HANDLE_EMU])).
  assert (Hloss2 : loss_bps pol ∅ (Scenario.emu Scenario.spec) (Helpers t3 r3) s2
                   = throttle_flow pol ∅ (Helpers t3 r3) Scenario.key 1000000 s2').
  { unfold s2, s2'. by rewrite scenario_loss_bps by reflexivity. }
  assert (Hbase2 : t3 <= departure b2 t3 < 2 ^ 62 + 1000000).
  { unfold departure, b2. cbn [stamped skb_tstamp].
    destruct (Z.ltb_spec (t2 + 1000000) t3); lia. }
  destruct (throttle_flow_passes pol (Helpers t3 r3) Scenario.key 1000000 s2' 12000000)
    as [s3 Hrun3].
  { by apply Hdur. }
  { lia. }
  { cbn [ktime_ns]. lia. }
  { unfold s2'. cbn [st_skb ktime_ns]. lia. }
  { unfold s2'. cbn [st_skb st_flow_map ktime_ns]. rewrite He1.
    unfold TIME_HORIZON_NS. lia. }
  destruct (throttle_flow_ok_inv pol (Helpers t3 r3) Scenario.key 1000000 s2'
              12000000 s3) as (e3 & _ & _ & _ & _ & Hst3 & Hafter).
  { by apply Hdur. }
  { lia. }
  { cbn [ktime_ns]. lia. }
  { unfold s2', b2. cbn [st_skb stamped skb_tstamp]. lia. }
  { unfold s2'. cbn [st_skb ktime_ns]. lia. }
  { unfold s2'. cbn [st_flow_map]. intros last Hl. rewrite He1 in Hl.
    injection Hl as <-. lia. }
  { exact Hrun3. }
  cbn [ktime_ns] in Hafter. unfold s2' in Hafter, Hst3.
  cbn [st_skb st_flow_map] in Hafter, Hst3.
  specialize (Hafter e1 He1).
  unfold b2 in Hst3. cbn [stamped skb_tstamp] in Hst3.
  exists s0, s1, s2, s3.
  split; [apply Hdj; lia |].
  split; [reflexivity |].
  split; [by rewrite Hloss1 |].
  split; [lia |].
  split; [apply Hdj; lia |].
  split; [reflexivity |].
  split; [by rewrite Hloss2 |].
  split; [lia |].
  intros Hsoon.
  assert (Hd3 : departure (st_skb s3) t3 = skb_tstamp (st_skb s3)).
  { unfold departure. destruct (Z.ltb_spec (skb_tstamp (st_skb s3)) t3); lia. }
  lia.
Qed.

(** The scenario on a new flow: the first packet arrives at 5,000 and meets
    the pacing stage at 6,000, the second arrives at 9,000 and meets it at
    9,500. *)
Lemma throttle_duration_and_scenario_pacing_witness :
  throttle_delay_ns Div0Undefined 1500 1000000 = Some (1500 * 8 * 1000000000 / 1000000) /\
  exists s0 s1 s2 s3,
    delay_jitter (Scenario.emu Scenario.spec) (Helpers 5000 0)
      (TcState (Scenario.packet 0) flow_map_init []) = Some (TC_ACT_OK, s0) /\
    skb_tstamp (st_skb s0) = 5000 + 1000000 /\
    loss_bps Div0Undefined ∅ (Scenario.emu Scenario.spec) (Helpers 6000 0) s0
    = Some (TC_ACT_OK, s1) /\
    5000 + 1000000 <= skb_tstamp (st_skb s1) /\
    delay_jitter (Scenario.emu Scenario.spec) (Helpers 9000 0)
      (TcState (Scenario.packet 0) (st_flow_map s1) []) = Some (TC_ACT_OK, s2) /\
    skb_tstamp (st_skb s2) = 9000 + 1000000 /\
    loss_bps Div0Undefined ∅ (Scenario.emu Scenario.spec) (Helpers 9500 0) s2
    = Some (TC_ACT_OK, s3) /\
    departure (st_skb s1) 6000 + 12000000 <= departure (st_skb s3) 9500 /\
    skb_tstamp (st_skb s1) + 12000000 <= skb_tstamp (st_skb s3).
Proof.
  destruct (throttle_duration_and_scenario_pacing Div0Undefined 1500 1000000
              flow_map_init [] [] 5000 6000 9000 9500 0 0 0 0)
    as (Hdur & _ & _ & s0 & s1 & s2 & s3 & H0 & Hs0 & H1 & Hs1 & H2 & Hs2 & H3 & Hdep & Hst).
  - lia.
  - lia.
  - lia.
  - lia.
  - lia.
  - lia.
  - vm_compute. reflexivity.
  - split; [exact Hdur |]. exists s0, s1, s2, s3.
    repeat (split; [assumption |]). apply Hst. lia.
Defined.

(** C10, as stated, fails.  A packet of the scenario's flow that arrives
    with the stale stamp 5 while the clock reads 100,000,000, the flow's
    stored timestamp being long past: [delay_jitter] stamps it 1,000,005,
    the pacing stage lets it through at once with that stamp, and it leaves
    at 100,000,000, not at 101,000,000 or later.  And after a packet stamped
    13,005,000, an unstamped packet that arrives at 20,000,000 and meets the
    pacing stage at 30,000,000 is let through with the stamp 21,000,000,
    less than 12,000,000 ns after the previous stamp: it is the departure
    (here the clock reading 30,000,000) that keeps the distance. *)
Lemma stale_packet_is_scheduled_early_counterexample :
  (exists s0 s1,
     delay_jitter (Scenario.emu Scenario.spec) (Helpers 100000000 0)
       (TcState (Scenario.packet 5) (Scenario.flow_map_with 1000) [])
     = Some (TC_ACT_OK, s0) /\
     loss_bps Div0Undefined ∅ (Scenario.emu Scenario.spec) (Helpers 100000000 0) s0
     = Some (TC_ACT_OK, s1) /\
     skb_tstamp (st_skb s1) = 1000005 /\
     departure (st_skb s1) 100000000 = 100000000 /\
     ~ 100000000 + 1000000 <= skb_tstamp (st_skb s1) /\
     ~ 100000000 + 1000000 <= departure (st_skb s1) 100000000) /\
  (exists s1 s2 s3,
     loss_bps Div0Undefined ∅ (Scenario.emu Scenario.spec) (Helpers 6000 0)
       (TcState (Scenario.packet 1005000) flow_map_init [])
     = Some (TC_ACT_OK, s1) /\
     skb_tstamp (st_skb s1) = 13005000 /\
     delay_jitter (Scenario.emu Scenario.spec) (Helpers 20000000 0)
       (TcState (Scenario.packet 0) (st_flow_map s1) [])
     = Some (TC_ACT_OK, s2) /\
     loss_bps Div0Undefined ∅ (Scenario.emu Scenario.spec) (Helpers 30000000 0) s2
     = Some (TC_ACT_OK, s3) /\
     skb_tstamp (st_skb s3) = 21000000 /\
     ~ skb_tstamp (st_skb s1) + 12000000 <= skb_tstamp (st_skb s3)).
Proof.
  split.
  - eexists. eexists.
    split; [vm_compute; reflexivity |]. split; [vm_compute; reflexivity |].
    split; [reflexivity |]. split; [reflexivity |].
    split; vm_compute; intros Hle; by apply Hle.
  - eexists. eexists. eexists.
    split; [vm_compute; reflexivity |]. split; [reflexivity |].
    split; [vm_compute; reflexivity |]. split; [vm_compute; reflexivity |].
    split; [reflexivity |]. vm_compute. intros Hle. by apply Hle.
Qed.

(** * Further properties of the programs *)

(** ** [delay_jitter] and [inject_delay_jitter] *)

Lemma stamped_same b : stamped b (skb_tstamp b) = b.
Proof. by destruct b. Qed.

Ltac elem_of_cases H :=
  repeat (apply elem_of_cons in H as [-> | H]; [auto |]);
  try (by apply elem_of_nil in H).

Ltac elem_of_absurd H :=
  repeat (apply elem_of_cons in H as [H | H]; [discriminate H |]);
  by apply elem_of_nil in H.

(** X1.  [delay_jitter] never shoots a packet whose ethernet header is
    complete and never writes: it answers TC_ACT_OK, the pacing table, the
    length, the interface and the bytes of the packet are as before, and the
    only helpers it calls are the lookup of the impairment entry, the clock
    and the random generator.  Without an impairment entry the packet is
    untouched and neither the clock nor the generator is read; with a jitter
    of 0 the generator is not read. *)
Theorem delay_jitter_never_drops_nor_writes
    (emu : hash_map flow_key handle_emu) (h : helpers) (s : tc_state) (eth : ethhdr) :
  parse_ethhdr (skb_data (st_skb s)) = Some eth ->
  exists s',
    delay_jitter emu h s = Some (TC_ACT_OK, s') /\
    st_flow_map s' = st_flow_map s /\
    st_skb s' = stamped (st_skb s) (skb_tstamp (st_skb s')) /\
    (exists evs, st_trace s' = st_trace s ++ evs /\
                 forall e, e ∈ evs ->
                           e = EvMapLookup id_MAC_HANDLE_EMU \/ e = EvKtime \/ e = EvPrandom) /\
    (map_lookup_elem emu (FlowKey (skb_ifindex (st_skb s)) (h_source eth)) = None ->
     s' = traced s [EvMapLookup id_MAC_HANDLE_EMU]) /\
    (forall v,
       map_lookup_elem emu (FlowKey (skb_ifindex (st_skb s)) (h_source eth)) = Some v ->
       jitter_ns_of (jitter v) = 0 ->
       st_trace s' = st_trace s ++ [EvMapLookup id_MAC_HANDLE_EMU; EvKtime]).
Proof.
  intros Hparse. rewrite (delay_jitter_run emu h s eth Hparse). cbv zeta.
  destruct (map_lookup_elem emu _) as [v |].
  - eexists. split; [reflexivity |]. cbn [st_flow_map st_skb st_trace].
    split; [reflexivity |]. split; [reflexivity |]. split; [| split; [done |]].
    + eexists. split; [reflexivity |]. intros e He.
      destruct (0 <? jitter_ns_of (jitter v)); cbn [app] in He; elem_of_cases He.
    + intros v' [= <-] Hj. by rewrite Hj.
  - eexists. split; [reflexivity |]. unfold traced. cbn [st_flow_map st_skb st_trace].
    split; [reflexivity |]. split; [by rewrite stamped_same |].
    split; [| split; [done | done]].
    eexists. split; [reflexivity |]. intros e He. elem_of_cases He.
Qed.

Lemma delay_jitter_never_drops_nor_writes_witness :
  exists s',
    delay_jitter (Scenario.emu Scenario.spec) (Helpers 5000 77)
      (TcState (Scenario.small_packet 0) (Scenario.flow_map_with 9) [])
    = Some (TC_ACT_OK, s') /\
    st_flow_map s' = Scenario.flow_map_with 9.
Proof.
  destruct (delay_jitter_never_drops_nor_writes
              (Scenario.emu Scenario.spec) (Helpers 5000 77)
              (TcState (Scenario.small_packet 0) (Scenario.flow_map_with 9) [])
              (ethhdr_at (Scenario.frame Scenario.mac_dst 64)))
    as (s' & Hrun & Hfm & _).
  - reflexivity.
  - exists s'. split; [exact Hrun | exact Hfm].
Defined.

(** X2.  The jitter offset of lines 33-39, for every 32-bit draw: it lies in
    the closed range from -jitter_ns to +jitter_ns and never above
    2^32 - 1 - jitter_ns (a draw has 32 bits); the draw 0 gives the lower
    end, and the draw 2 * jitter_ns, when it fits 32 bits, the upper end. *)
Theorem jitter_offset_closed_range (h : helpers) (t jitter : Z) :
  0 <= prandom_u32 h < 2 ^ 32 ->
  (- jitter_ns_of jitter <= jitter_offset h jitter <= jitter_ns_of jitter) /\
  jitter_offset h jitter <= 2 ^ 32 - 1 - jitter_ns_of jitter /\
  jitter_offset (Helpers t 0) jitter = - jitter_ns_of jitter /\
  (2 * jitter_ns_of jitter < 2 ^ 32 ->
   jitter_offset (Helpers t (2 * jitter_ns_of jitter)) jitter = jitter_ns_of jitter).
Proof.
  intros [Hr0 Hr1].
  pose proof (u32_range (jitter * NS_PER_0_0_1_MS)) as Hj.
  fold (jitter_ns_of jitter) in Hj.
  assert (Hoff : forall h', 0 <= prandom_u32 h' ->
            jitter_offset h' jitter
            = if 0 <? jitter_ns_of jitter
              then prandom_u32 h' mod (2 * jitter_ns_of jitter + 1) - jitter_ns_of jitter
              else 0).
  { intros h' Hr. unfold jitter_offset. set (r := prandom_u32 h') in *.
    destruct (Z.ltb_spec 0 (jitter_ns_of jitter)) as [Hpos | _]; [| done].
    unfold random_jitter_of.
    rewrite (u64_small (2 * jitter_ns_of jitter + 1)) by lia.
    pose proof (Z.mod_pos_bound r (2 * jitter_ns_of jitter + 1)) as Hm.
    rewrite s64_u64_small by lia. done. }
  split; [by apply jitter_offset_range |].
  split.
  - rewrite Hoff by done.
    destruct (Z.ltb_spec 0 (jitter_ns_of jitter)) as [Hpos | _]; [| lia].
    pose proof (Z.mod_le (prandom_u32 h) (2 * jitter_ns_of jitter + 1)) as Hle.
    lia.
  - split.
    + rewrite Hoff by (cbn [prandom_u32]; lia). cbn [prandom_u32].
      destruct (Z.ltb_spec 0 (jitter_ns_of jitter)) as [Hpos | ?].
      * rewrite Z.mod_0_l by lia. lia.
      * lia.
    + intros Hfit. rewrite Hoff by (cbn [prandom_u32]; lia). cbn [prandom_u32].
      destruct (Z.ltb_spec 0 (jitter_ns_of jitter)) as [Hpos | ?].
      * rewrite Z.mod_small by lia. lia.
      * lia.
Qed.

Lemma jitter_offset_closed_range_witness :
  - jitter_ns_of 50 <= jitter_offset (Helpers 0 123456789) 50 <= jitter_ns_of 50.
Proof.
  destruct (jitter_offset_closed_range (Helpers 0 123456789) 0 50) as [H _].
  - simpl. lia.
  - exact H.
Defined.

(** X3.  Within the 32-bit range of the unit conversion (delay and jitter
    up to 429496, about 4.29 s) and as long as the 64-bit time does not
    wrap, [delay_jitter] moves the stamp of a packet by at least
    (delay - jitter) * 10000 and at most (delay + jitter) * 10000
    nanoseconds from its base: the present for an unstamped packet, the
    stamp it carries otherwise. *)
Theorem stamp_moves_within_the_delay_window
    (emu : hash_map flow_key handle_emu) (h : helpers) (s : tc_state)
    (eth : ethhdr) (val : handle_emu) (base : Z) :
  parse_ethhdr (skb_data (st_skb s)) = Some eth ->
  map_lookup_elem emu (FlowKey (skb_ifindex (st_skb s)) (h_source eth)) = Some val ->
  0 <= prandom_u32 h ->
  0 <= delay val -> delay val * 10000 < 2 ^ 32 ->
  0 <= jitter val -> jitter val * 10000 < 2 ^ 32 ->
  base = (if skb_tstamp (st_skb s) =? 0 then ktime_ns h else skb_tstamp (st_skb s)) ->
  jitter val * 10000 <= base < 2 ^ 63 ->
  exists s',
    delay_jitter emu h s = Some (TC_ACT_OK, s') /\
    (delay val - jitter val) * 10000
      <= skb_tstamp (st_skb s') - base
      <= (delay val + jitter val) * 10000.
Proof.
  intros Hparse Hval Hr Hd0 Hd1 Hj0 Hj1 Hbase Hfit.
  rewrite (delay_jitter_run _ _ _ _ Hparse), Hval. cbv zeta.
  eexists. split; [reflexivity |].
  cbn [st_skb stamped skb_tstamp]. rewrite <- Hbase.
  pose proof (jitter_offset_range h (jitter val) Hr) as Hoff.
  unfold delay_ns_of, jitter_ns_of, NS_PER_0_0_1_MS in *.
  rewrite (u32_small (delay val * 10000)) by lia.
  rewrite (u32_small (jitter val * 10000)) in Hoff by lia.
  rewrite u64_small by lia. lia.
Qed.

Lemma stamp_moves_within_the_delay_window_witness :
  exists s',
    delay_jitter (Scenario.emu (HandleEmu 0 100 0 30)) (Helpers 5000000 123456789)
      (TcState (Scenario.small_packet 7000000) flow_map_init [])
    = Some (TC_ACT_OK, s') /\
    (100 - 30) * 10000 <= skb_tstamp (st_skb s') - 7000000 <= (100 + 30) * 10000.
Proof.
  apply (stamp_moves_within_the_delay_window (Scenario.emu (HandleEmu 0 100 0 30))
           (Helpers 5000000 123456789)
           (TcState (Scenario.small_packet 7000000) flow_map_init [])
           (ethhdr_at (Scenario.frame Scenario.mac_dst 64)) (HandleEmu 0 100 0 30)
           7000000).
  - reflexivity.
  - reflexivity.
  - simpl. lia.
  - simpl. lia.
  - simpl. lia.
  - simpl. lia.
  - simpl. lia.
  - reflexivity.
  - simpl. lia.
Defined.

(** X4.  Running [delay_jitter] a second time on a packet it has already
    stamped adds the delay (and a second jitter offset) on top of the first
    stamp: the second clock reading plays no part.  The stamp after both
    runs is base + 2 * delay_ns + both offsets in 64-bit arithmetic, provided
    the first stamp is not 0. *)
Theorem delay_jitter_twice_accumulates
    (emu : hash_map flow_key handle_emu) (h1 h2 : helpers) (s : tc_state)
    (eth : ethhdr) (val : handle_emu) :
  parse_ethhdr (skb_data (st_skb s)) = Some eth ->
  map_lookup_elem emu (FlowKey (skb_ifindex (st_skb s)) (h_source eth)) = Some val ->
  u64 ((if skb_tstamp (st_skb s) =? 0 then ktime_ns h1 else skb_tstamp (st_skb s))
       + delay_ns_of (delay val) + jitter_offset h1 (jitter val)) <> 0 ->
  exists s1 s2,
    delay_jitter emu h1 s = Some (TC_ACT_OK, s1) /\
    delay_jitter emu h2 s1 = Some (TC_ACT_OK, s2) /\
    skb_tstamp (st_skb s2)
    = u64 ((if skb_tstamp (st_skb s) =? 0 then ktime_ns h1 else skb_tstamp (st_skb s))
           + 2 * delay_ns_of (delay val)
           + jitter_offset h1 (jitter val) + jitter_offset h2 (jitter val)).
Proof.
  intros Hparse Hval Hnz.
  rewrite (delay_jitter_run emu h1 s eth Hparse), Hval. cbv zeta.
  eexists. eexists. split; [reflexivity |].
  set (base := if skb_tstamp (st_skb s) =? 0 then ktime_ns h1 else skb_tstamp (st_skb s)) in *.
  set (stamp1 := u64 (base + delay_ns_of (delay val) + jitter_offset h1 (jitter val))) in *.
  match goal with
  | |- delay_jitter emu h2 ?s1 = _ /\ _ =>
      assert (Hparse1 : parse_ethhdr (skb_data (st_skb s1)) = Some eth) by exact Hparse;
      rewrite (delay_jitter_run emu h2 s1 eth Hparse1)
  end.
  cbn [st_skb stamped skb_ifindex skb_tstamp st_flow_map st_trace].
  rewrite Hval. cbv zeta.
  split; [reflexivity |]. cbn [st_skb stamped skb_tstamp].
  fold base. fold stamp1.
  destruct (Z.eqb_spec stamp1 0) as [? | _]; [done |].
  unfold stamp1. rewrite <- (Z.add_assoc (u64 _)).
  rewrite u64_add_l. f_equal. lia.
Qed.

Lemma delay_jitter_twice_accumulates_witness :
  exists s1 s2,
    delay_jitter (Scenario.emu Scenario.spec) (Helpers 5000 0)
      (TcState (Scenario.small_packet 0) flow_map_init []) = Some (TC_ACT_OK, s1) /\
    delay_jitter (Scenario.emu Scenario.spec) (Helpers 800000 0) s1 = Some (TC_ACT_OK, s2) /\
    skb_tstamp (st_skb s2) = 2005000.
Proof.
  destruct (delay_jitter_twice_accumulates
              (Scenario.emu Scenario.spec) (Helpers 5000 0) (Helpers 800000 0)
              (TcState (Scenario.small_packet 0) flow_map_init [])
              (ethhdr_at (Scenario.frame Scenario.mac_dst 64)) Scenario.spec)
    as (s1 & s2 & Hrun1 & Hrun2 & Hstamp).
  - reflexivity.
  - reflexivity.
  - vm_compute. discriminate.
  - exists s1, s2. split; [exact Hrun1 |]. split; [exact Hrun2 |].
    rewrite Hstamp. reflexivity.
Defined.

(** ** [throttle_flow] *)

Lemma throttle_delay_ns_bounds pol len rate :
  0 < rate < 2 ^ 32 -> 0 < len < 2 ^ 28 ->
  exists dur, throttle_delay_ns pol len rate = Some dur /\ 0 < dur < 2 ^ 61.
Proof.
  intros Hrate Hlen. unfold throttle_delay_ns.
  rewrite udiv64_nonzero by lia. eexists. split; [reflexivity |].
  rewrite u64_mul_l. unfold NS_PER_SEC. rewrite u64_small by lia.
  split.
  - apply Z.div_str_pos. lia.
  - pose proof (Z.mul_div_le (len * 8 * 1000000000) rate) as Hle.
    assert (0 <= len * 8 * 1000000000 / rate) by (apply Z.div_pos; lia).
    nia.
Qed.

(** X5.  Pacing keeps consecutive packets of a flow apart, at every rate
    and for every pair of lengths: when [throttle_flow] lets a packet
    through and then lets the next packet of the same flow through, the
    second departs (its stamp, or the present when it is sent at once) no
    earlier than the first departure plus the second packet's own
    transmission duration -- whether either packet met a backlog or not, and
    whatever the two clock readings are.  Clocks, stamps and the stored
    timestamp are below 2^62 and lengths below 2^28 so that no 64-bit sum
    wraps. *)
Theorem consecutive_packets_are_spaced
    (pol : div0_policy) (h1 h2 : helpers) (key : flow_key) (rate : Z)
    (skb1 skb2 : sk_buff) (fm : hash_map flow_key Z) (tr1 tr2 : list event)
    (s1 s2 : tc_state) (dur2 : Z) :
  0 < rate < 2 ^ 32 ->
  0 < skb_len skb1 < 2 ^ 28 -> 0 < skb_len skb2 < 2 ^ 28 ->
  0 <= ktime_ns h1 < 2 ^ 62 -> 0 <= ktime_ns h2 < 2 ^ 62 ->
  0 <= skb_tstamp skb1 < 2 ^ 62 -> 0 <= skb_tstamp skb2 < 2 ^ 62 ->
  (forall last, map_lookup_elem fm key = Some last -> 0 <= last < 2 ^ 62) ->
  throttle_delay_ns pol (skb_len skb2) rate = Some dur2 ->
  throttle_flow pol ∅ h1 key rate (TcState skb1 fm tr1) = Some (TC_ACT_OK, s1) ->
  throttle_flow pol ∅ h2 key rate (TcState skb2 (st_flow_map s1) tr2)
  = Some (TC_ACT_OK, s2) ->
  departure (st_skb s1) (ktime_ns h1) + dur2 <= departure (st_skb s2) (ktime_ns h2).
Proof.
  intros Hrate Hlen1 Hlen2 Ht1 Ht2 Hst1 Hst2 Hfm Hdur2 Hrun1 Hrun2.
  destruct (throttle_delay_ns_bounds pol _ _ Hrate Hlen1) as (dur1 & Hdur1 & Hd1).
  destruct (throttle_delay_ns_bounds pol _ _ Hrate Hlen2) as (dur2' & Hdur2' & Hd2).
  rewrite Hdur2 in Hdur2'. injection Hdur2' as <-.
  assert (Hdep1 : departure skb1 (ktime_ns h1) < 2 ^ 62).
  { unfold departure. destruct (Z.ltb_spec (skb_tstamp skb1) (ktime_ns h1)); lia. }
  assert (Hdep2 : departure skb2 (ktime_ns h2) < 2 ^ 62).
  { unfold departure. destruct (Z.ltb_spec (skb_tstamp skb2) (ktime_ns h2)); lia. }
  destruct (throttle_flow_ok_inv pol h1 key rate (TcState skb1 fm tr1) dur1 s1)
    as (e & He & Hde & Hcase & Hmono & _ & _);
    [exact Hdur1 | lia | lia | cbn [st_skb]; lia | cbn [st_skb]; lia | | exact Hrun1 |].
  { cbn [st_flow_map]. intros last Hl%Hfm. lia. }
  assert (He62 : 0 <= e < 2 ^ 62 + 2 ^ 61).
  { assert (0 <= departure skb1 (ktime_ns h1)).
    { unfold departure. destruct (Z.ltb_spec (skb_tstamp skb1) (ktime_ns h1)); lia. }
    cbn [st_skb st_flow_map] in Hcase.
    destruct Hcase as [-> | (last & Hl%Hfm & ->)]; lia. }
  destruct (throttle_flow_ok_inv pol h2 key rate (TcState skb2 (st_flow_map s1) tr2) dur2 s2)
    as (e2 & _ & _ & _ & _ & _ & Hafter);
    [exact Hdur2 | lia | lia | cbn [st_skb]; lia | cbn [st_skb]; lia | | exact Hrun2 |].
  { cbn [st_flow_map]. intros last Hl. rewrite He in Hl. injection Hl as <-. lia. }
  cbn [st_flow_map] in Hafter. specialize (Hafter e He). lia.
Qed.

Lemma consecutive_packets_are_spaced_witness :
  departure (Scenario.packet 13005000) 6000 + 12000000
  <= departure (Scenario.packet 25005000) 9500.
Proof.
  apply (consecutive_packets_are_spaced Div0Undefined (Helpers 6000 0) (Helpers 9500 0)
           Scenario.key 1000000 (Scenario.packet 1005000) (Scenario.packet 1009000)
           flow_map_init [] []
           (TcState (Scenario.packet 13005000) (Scenario.flow_map_with 13005000)
              [EvMapLookup id_flow_map; EvKtime; EvMapUpdate id_flow_map; EvTailCall 0])
           (TcState (Scenario.packet 25005000) (Scenario.flow_map_with 25005000)
              [EvMapLookup id_flow_map; EvKtime; EvMapUpdate id_flow_map; EvTailCall 0])).
  - lia.
  - simpl. lia.
  - simpl. lia.
  - simpl. lia.
  - simpl. lia.
  - simpl. lia.
  - simpl. lia.
  - intros last Hl. unfold map_lookup_elem, flow_map_init in Hl.
    cbn [table] in Hl. by rewrite lookup_empty in Hl.
  - vm_compute. reflexivity.
  - vm_compute. reflexivity.
  - vm_compute. reflexivity.
Defined.

Lemma departure_lower b now : now <= departure b now /\ skb_tstamp b <= departure b now.
Proof. unfold departure. destruct (Z.ltb_spec (skb_tstamp b) now); lia. Qed.

Lemma map_update_elem_any_spec {K V} `{Countable K} (m : hash_map K V) k v :
  map_update_elem m k v BPF_ANY
  = if bool_decide (is_Some (table m !! k)) || negb (max_entries m <=? entries m)
    then (0, HashMap (max_entries m) (<[k := v]> (table m)))
    else (- E2BIG, m).
Proof.
  unfold map_update_elem, entries.
  change (BPF_EXIST <? BPF_ANY) with false. change (BPF_ANY =? BPF_EXIST) with false.
  change (BPF_ANY =? BPF_NOEXIST) with false. cbv iota.
  destruct (table m !! k) as [old |] eqn:Hk.
  - by rewrite bool_decide_eq_true_2 by eauto.
  - rewrite bool_decide_eq_false_2 by (by intros [? ?]).
    by destruct (max_entries m <=? Z.of_nat (size (table m))).
Qed.

(** X6.  Pacing never schedules a packet 2 seconds or more ahead: when
    [throttle_flow] lets a packet through it either leaves the packet as it
    was (no backlog) or gives it a stamp that is later than the time the
    packet could have left, less than the horizon after the present, and
    equal to the pacing entry it stores for the flow. *)
Theorem paced_stamp_is_within_horizon
    (pol : div0_policy) (h : helpers) (key : flow_key) (rate : Z) (s s' : tc_state) :
  rate <> 0 ->
  0 <= ktime_ns h ->
  throttle_flow pol ∅ h key rate s = Some (TC_ACT_OK, s') ->
  st_skb s' = st_skb s \/
  (departure (st_skb s) (ktime_ns h) < skb_tstamp (st_skb s') /\
   skb_tstamp (st_skb s') - ktime_ns h < 2 * 10 ^ 9 /\
   map_lookup_elem (st_flow_map s') key = Some (skb_tstamp (st_skb s'))).
Proof.
  intros Hrate Hnow.
  rewrite (throttle_flow_run pol ∅ h key rate s _ (udiv64_nonzero pol _ rate Hrate)).
  cbv zeta. rewrite !bpf_tail_call_empty by apply lookup_empty. unfold ret.
  set (now := ktime_ns h) in *. set (base := departure (st_skb s) now).
  set (next := candidate_next _ base _).
  destruct (Z.leb_spec next base) as [_ | Hbacklog].
  - intros [= <-]. by left.
  - destruct (Z.leb_spec TIME_HORIZON_NS (u64 (next - now))) as [_ | Hnear]; [done |].
    destruct (Z.eqb_spec (map_update_elem (st_flow_map s) key next BPF_ANY).1 0)
      as [Hrc | _]; [| done].
    cbn [negb]. intros [= <-]. right. cbn [st_skb st_flow_map traced stamped skb_tstamp].
    assert (Hnext : 0 <= next < 2 ^ 64).
    { unfold next, candidate_next.
      destruct (map_lookup_elem (st_flow_map s) key); apply u64_range. }
    pose proof (departure_lower (st_skb s) now) as [Hb _]. fold base in Hb.
    rewrite u64_small in Hnear by lia. unfold TIME_HORIZON_NS in Hnear.
    split; [lia |]. split; [lia |]. by apply map_update_elem_any_result.
Qed.

Lemma paced_stamp_is_within_horizon_witness :
  departure (Scenario.packet 1005000) 6000 < skb_tstamp (Scenario.packet 13005000) /\
  skb_tstamp (Scenario.packet 13005000) - 6000 < 2 * 10 ^ 9.
Proof.
  destruct (paced_stamp_is_within_horizon Div0Undefined (Helpers 6000 0) Scenario.key
              1000000 (TcState (Scenario.packet 1005000) flow_map_init [])
              (TcState (Scenario.packet 13005000) (Scenario.flow_map_with 13005000)
                 [EvMapLookup id_flow_map; EvKtime; EvMapUpdate id_flow_map; EvTailCall 0]))
    as [Hsame | (Hlate & Hnear & _)].
  - lia.
  - simpl. lia.
  - vm_compute. reflexivity.
  - discriminate Hsame.
  - split; [exact Hlate | exact Hnear].
Defined.

(** X7.  Idle credit is discarded, not saved up: when the stored timestamp
    plus the duration of the packet is not later than the time the packet
    can leave, the pacing entry is set to that time plus the duration --
    however far back the stored timestamp lies -- the packet keeps its
    stamp, and the program goes on (tail call, TC_ACT_OK). *)
Theorem idle_credit_is_discarded
    (pol : div0_policy) (progs : prog_array) (h : helpers) (key : flow_key)
    (rate : Z) (s : tc_state) (last dur : Z) :
  throttle_delay_ns pol (skb_len (st_skb s)) rate = Some dur ->
  map_lookup_elem (st_flow_map s) key = Some last ->
  0 <= last -> 0 <= dur ->
  departure (st_skb s) (ktime_ns h) + dur < 2 ^ 64 ->
  last + dur <= departure (st_skb s) (ktime_ns h) ->
  progs !! 0 = None ->
  throttle_flow pol progs h key rate s
  = Some (TC_ACT_OK,
          TcState (st_skb s)
            (HashMap (max_entries (st_flow_map s))
               (<[key := departure (st_skb s) (ktime_ns h) + dur]> (table (st_flow_map s))))
            (st_trace s ++ [EvMapLookup id_flow_map; EvKtime;
                            EvMapUpdate id_flow_map; EvTailCall 0])).
Proof.
  intros Hdur Hlast Hl0 Hd0 Hfit Hidle Hslot.
  rewrite (idle_branch_result pol progs h key rate s dur Hdur); [| | exact Hslot].
  - rewrite u64_small by lia.
    rewrite map_update_elem_any_spec.
    unfold map_lookup_elem in Hlast.
    rewrite bool_decide_eq_true_2 by (rewrite Hlast; eauto). done.
  - rewrite Hlast. cbn [candidate_next]. rewrite u64_small by lia. exact Hidle.
Qed.

Lemma idle_credit_is_discarded_witness :
  throttle_flow Div0Undefined ∅ (Helpers 900000000 0) Scenario.key 1000000
    (TcState (Scenario.packet 0) (Scenario.flow_map_with 13005000) [])
  = Some (TC_ACT_OK,
          TcState (Scenario.packet 0)
            (HashMap flow_map_max_entries
               (<[Scenario.key := 900000000 + 12000000]> {[ Scenario.key := 13005000 ]}))
            [EvMapLookup id_flow_map; EvKtime; EvMapUpdate id_flow_map; EvTailCall 0]).
Proof.
  apply (idle_credit_is_discarded Div0Undefined ∅ (Helpers 900000000 0) Scenario.key
           1000000 (TcState (Scenario.packet 0) (Scenario.flow_map_with 13005000) [])
           13005000 12000000).
  - vm_compute. reflexivity.
  - vm_compute. reflexivity.
  - lia.
  - lia.
  - vm_compute. reflexivity.
  - vm_compute. discriminate.
  - apply lookup_empty.
Defined.

(** X8.  For a packet whose transmission duration is positive and whose
    departure time plus that duration stays below 2^64 (clock and stamp
    non-negative), so that the candidate time lies after the departure time:
    a flow that has no pacing entry cannot start while the pacing table is
    at capacity.  Its packet is shot -- by the horizon test or because the
    table refuses the new entry -- with the packet and the table unchanged
    and without a tail call.  The conditions matter: with a duration of 0 or
    a sum that wraps the branch without a backlog is taken, where a refused
    write is not looked at. *)
Theorem new_flow_is_shot_when_table_is_full
    (pol : div0_policy) (progs : prog_array) (h : helpers) (key : flow_key)
    (rate : Z) (s : tc_state) (dur : Z) :
  throttle_delay_ns pol (skb_len (st_skb s)) rate = Some dur ->
  0 < dur ->
  0 <= ktime_ns h -> 0 <= skb_tstamp (st_skb s) ->
  departure (st_skb s) (ktime_ns h) + dur < 2 ^ 64 ->
  map_lookup_elem (st_flow_map s) key = None ->
  max_entries (st_flow_map s) <= entries (st_flow_map s) ->
  exists evs,
    throttle_flow pol progs h key rate s
    = Some (TC_ACT_SHOT, TcState (st_skb s) (st_flow_map s) (st_trace s ++ evs)) /\
    EvTailCall 0 ∉ evs.
Proof.
  intros Hdur Hd Hnow Hst Hfit Hnone Hfull.
  rewrite (throttle_flow_run pol progs h key rate s dur Hdur). cbv zeta.
  rewrite Hnone. cbn [candidate_next].
  pose proof (departure_lower (st_skb s) (ktime_ns h)) as [Hb _].
  rewrite (u64_small (departure _ _ + dur)) by lia.
  destruct (Z.leb_spec (departure (st_skb s) (ktime_ns h) + dur)
              (departure (st_skb s) (ktime_ns h))) as [? | _]; [lia |].
  destruct (TIME_HORIZON_NS <=? _).
  - exists [EvMapLookup id_flow_map; EvKtime]. split; [done |].
    intros He. elem_of_absurd He.
  - rewrite (map_update_elem_full _ _ _ Hnone Hfull). cbn [fst snd negb Z.eqb E2BIG Z.opp].
    exists [EvMapLookup id_flow_map; EvKtime; EvMapUpdate id_flow_map]. split; [done |].
    intros He. elem_of_absurd He.
Qed.

Lemma new_flow_is_shot_when_table_is_full_witness :
  exists evs,
    throttle_flow Div0Undefined ∅ (Helpers 6000 0) Scenario.key 1000000
      (TcState (Scenario.packet 0) Scenario.full_flow_map [])
    = Some (TC_ACT_SHOT, TcState (Scenario.packet 0) Scenario.full_flow_map ([] ++ evs)) /\
    EvTailCall 0 ∉ evs.
Proof.
  apply (new_flow_is_shot_when_table_is_full Div0Undefined ∅ (Helpers 6000 0)
           Scenario.key 1000000 (TcState (Scenario.packet 0) Scenario.full_flow_map [])
           12000000).
  - cbn [st_skb]. vm_compute. reflexivity.
  - lia.
  - simpl. lia.
  - simpl. lia.
  - cbn [st_skb]. vm_compute. reflexivity.
  - cbn [st_flow_map]. apply full_flow_map_lookup_key.
  - cbn [st_flow_map]. rewrite full_flow_map_entries. lia.
Defined.

(** X9.  A packet that meets a backlog within the horizon is queued behind
    it: with a stored timestamp [last] for its flow, [last] plus the duration
    of the packet becomes both the stamp of the packet and the new pacing
    entry, and the program goes on.  This holds at any fill level of the
    pacing table: overwriting the entry of a known flow is never refused. *)
Theorem backlogged_packet_is_queued_behind_entry
    (pol : div0_policy) (progs : prog_array) (h : helpers) (key : flow_key)
    (rate : Z) (s : tc_state) (last dur : Z) :
  throttle_delay_ns pol (skb_len (st_skb s)) rate = Some dur ->
  map_lookup_elem (st_flow_map s) key = Some last ->
  0 <= ktime_ns h ->
  0 <= last -> last + dur < 2 ^ 64 ->
  departure (st_skb s) (ktime_ns h) < last + dur ->
  last + dur - ktime_ns h < 2 * 10 ^ 9 ->
  progs !! 0 = None ->
  throttle_flow pol progs h key rate s
  = Some (TC_ACT_OK,
          TcState (stamped (st_skb s) (last + dur))
            (HashMap (max_entries (st_flow_map s))
               (<[key := last + dur]> (table (st_flow_map s))))
            (st_trace s ++ [EvMapLookup id_flow_map; EvKtime;
                            EvMapUpdate id_flow_map; EvTailCall 0])).
Proof.
  intros Hdur Hlast Hnow Hl0 Hfit Hbacklog Hnear Hslot.
  rewrite (throttle_flow_run pol progs h key rate s dur Hdur). cbv zeta.
  rewrite Hlast. cbn [candidate_next].
  pose proof (departure_lower (st_skb s) (ktime_ns h)) as [Hb Hb'].
  assert (0 <= last + dur) by lia.
  rewrite (u64_small (last + dur)) by lia.
  destruct (Z.leb_spec (last + dur) (departure (st_skb s) (ktime_ns h))) as [? | _]; [lia |].
  rewrite u64_small by lia.
  destruct (Z.leb_spec TIME_HORIZON_NS (last + dur - ktime_ns h)) as [Hfar | _];
    [unfold TIME_HORIZON_NS in Hfar; lia |].
  rewrite map_update_elem_any_spec.
  unfold map_lookup_elem in Hlast.
  rewrite bool_decide_eq_true_2 by (rewrite Hlast; eauto).
  cbn [orb fst snd negb Z.eqb].
  rewrite (bpf_tail_call_empty _ _ _ _ Hslot). unfold ret, traced.
  cbn [st_skb st_flow_map st_trace]. by rewrite <- app_assoc.
Qed.

Lemma backlogged_packet_is_queued_behind_entry_witness :
  throttle_flow Div0Undefined ∅ (Helpers 9500 0) Scenario.key 1000000
    (TcState (Scenario.packet 1009000) (Scenario.flow_map_with 13005000) [])
  = Some (TC_ACT_OK,
          TcState (stamped (Scenario.packet 1009000) (13005000 + 12000000))
            (HashMap flow_map_max_entries
               (<[Scenario.key := 13005000 + 12000000]> {[ Scenario.key := 13005000 ]}))
            [EvMapLookup id_flow_map; EvKtime; EvMapUpdate id_flow_map; EvTailCall 0]).
Proof.
  apply (backlogged_packet_is_queued_behind_entry Div0Undefined ∅ (Helpers 9500 0)
           Scenario.key 1000000
           (TcState (Scenario.packet 1009000) (Scenario.flow_map_with 13005000) [])
           13005000 12000000).
  - vm_compute. reflexivity.
  - vm_compute. reflexivity.
  - simpl. lia.
  - lia.
  - lia.
  - vm_compute. reflexivity.
  - simpl. lia.
  - apply lookup_empty.
Defined.

(** X10.  The first packet of a flow gets no head start: without a pacing
    entry, and with room in the table, the packet is stamped with the time
    it could leave plus its own transmission duration, and that time becomes
    the pacing entry of the flow (as long as it lies within the horizon). *)
Theorem first_packet_waits_its_own_duration
    (pol : div0_policy) (progs : prog_array) (h : helpers) (key : flow_key)
    (rate : Z) (s : tc_state) (dur : Z) :
  throttle_delay_ns pol (skb_len (st_skb s)) rate = Some dur ->
  0 < dur ->
  map_lookup_elem (st_flow_map s) key = None ->
  entries (st_flow_map s) < max_entries (st_flow_map s) ->
  0 <= ktime_ns h -> 0 <= skb_tstamp (st_skb s) ->
  departure (st_skb s) (ktime_ns h) + dur < 2 ^ 64 ->
  departure (st_skb s) (ktime_ns h) + dur - ktime_ns h < 2 * 10 ^ 9 ->
  progs !! 0 = None ->
  throttle_flow pol progs h key rate s
  = Some (TC_ACT_OK,
          TcState (stamped (st_skb s) (departure (st_skb s) (ktime_ns h) + dur))
            (HashMap (max_entries (st_flow_map s))
               (<[key := departure (st_skb s) (ktime_ns h) + dur]> (table (st_flow_map s))))
            (st_trace s ++ [EvMapLookup id_flow_map; EvKtime;
                            EvMapUpdate id_flow_map; EvTailCall 0])).
Proof.
  intros Hdur Hd Hnone Hroom Hnow Hst Hfit Hnear Hslot.
  rewrite (throttle_flow_run pol progs h key rate s dur Hdur). cbv zeta.
  rewrite Hnone. cbn [candidate_next].
  pose proof (departure_lower (st_skb s) (ktime_ns h)) as [Hb Hb'].
  set (base := departure (st_skb s) (ktime_ns h)) in *.
  rewrite (u64_small (base + dur)) by lia.
  destruct (Z.leb_spec (base + dur) base) as [? | _]; [lia |].
  rewrite u64_small by lia.
  destruct (Z.leb_spec TIME_HORIZON_NS (base + dur - ktime_ns h)) as [Hfar | _];
    [unfold TIME_HORIZON_NS in Hfar; lia |].
  rewrite map_update_elem_any_spec.
  destruct (Z.leb_spec (max_entries (st_flow_map s)) (entries (st_flow_map s)))
    as [? | _]; [lia |].
  rewrite orb_true_r. cbn [fst snd negb Z.eqb].
  rewrite (bpf_tail_call_empty _ _ _ _ Hslot). unfold ret, traced.
  cbn [st_skb st_flow_map st_trace]. by rewrite <- app_assoc.
Qed.

Lemma first_packet_waits_its_own_duration_witness :
  throttle_flow Div0Undefined ∅ (Helpers 6000 0) Scenario.key 1000000
    (TcState (Scenario.packet 0) flow_map_init [])
  = Some (TC_ACT_OK,
          TcState (stamped (Scenario.packet 0) (6000 + 12000000))
            (HashMap flow_map_max_entries (<[Scenario.key := 6000 + 12000000]> ∅))
            [EvMapLookup id_flow_map; EvKtime; EvMapUpdate id_flow_map; EvTailCall 0]).
Proof.
  apply (first_packet_waits_its_own_duration Div0Undefined ∅ (Helpers 6000 0)
           Scenario.key 1000000 (TcState (Scenario.packet 0) flow_map_init []) 12000000).
  - vm_compute. reflexivity.
  - lia.
  - vm_compute. reflexivity.
  - vm_compute. reflexivity.
  - simpl. lia.
  - simpl. lia.
  - vm_compute. reflexivity.
  - vm_compute. reflexivity.
  - apply lookup_empty.
Defined.

(** X11.  How the program array chains the next program: with a program
    [p] in slot 0, [throttle_flow] behaves as it does with an empty slot,
    except that where it would have answered TC_ACT_OK it hands the state it
    has reached (pacing entry written, packet stamped, tail call logged) to
    [p], whose answer becomes the answer; a packet that is shot never
    reaches [p]. *)
Theorem throttle_flow_chains_slot_0
    (pol : div0_policy) (progs : prog_array) (p : tc_prog) (h : helpers)
    (key : flow_key) (rate : Z) (s : tc_state) :
  progs !! 0 = Some p ->
  throttle_flow pol progs h key rate s
  = match throttle_flow pol ∅ h key rate s with
    | Some (act, s') => if act =? TC_ACT_OK then p s' else Some (act, s')
    | None => None
    end.
Proof.
  intros Hslot.
  destruct (throttle_delay_ns pol (skb_len (st_skb s)) rate) as [dur |] eqn:Hdur.
  - rewrite !(throttle_flow_run _ _ h key rate s dur Hdur). cbv zeta.
    rewrite !(bpf_tail_call_jump _ _ _ _ _ Hslot).
    rewrite !bpf_tail_call_empty by apply lookup_empty. unfold ret.
    destruct (candidate_next _ _ _ <=? _); [reflexivity |].
    destruct (TIME_HORIZON_NS <=? _); [reflexivity |].
    destruct (negb _); reflexivity.
  - unfold throttle_flow, lookup_flow_map, read_skb, bind, log, get, ret, lift_option.
    cbn [traced st_skb]. by rewrite Hdur.
Qed.

Lemma throttle_flow_chains_slot_0_witness :
  throttle_flow Div0Undefined
    {[ 0 := delay_jitter (Scenario.emu Scenario.spec) (Helpers 5500 0) ]}
    (Helpers 5000 0) Scenario.key 1000000
    (TcState (Scenario.small_packet 0) flow_map_init [])
  = match throttle_flow Div0Undefined ∅ (Helpers 5000 0) Scenario.key 1000000
            (TcState (Scenario.small_packet 0) flow_map_init []) with
    | Some (act, s') =>
        if act =? TC_ACT_OK
        then delay_jitter (Scenario.emu Scenario.spec) (Helpers 5500 0) s'
        else Some (act, s')
    | None => None
    end.
Proof.
  apply (throttle_flow_chains_slot_0 Div0Undefined
           {[ 0 := delay_jitter (Scenario.emu Scenario.spec) (Helpers 5500 0) ]}
           (delay_jitter (Scenario.emu Scenario.spec) (Helpers 5500 0))).
  apply lookup_singleton_eq.
Defined.

(** ** [loss_bps] *)

(** What one run of the pacing stage can do to the state. *)
Lemma throttle_flow_effect pol h key rate s act s' :
  throttle_flow pol ∅ h key rate s = Some (act, s') ->
  (act = TC_ACT_OK \/ act = TC_ACT_SHOT) /\
  st_skb s' = stamped (st_skb s) (skb_tstamp (st_skb s')) /\
  (st_flow_map s' = st_flow_map s \/
   exists v, st_flow_map s'
             = HashMap (max_entries (st_flow_map s)) (<[key := v]> (table (st_flow_map s))) /\
             (is_Some (table (st_flow_map s) !! key) \/
              entries (st_flow_map s) < max_entries (st_flow_map s))).
Proof.
  destruct (throttle_delay_ns pol (skb_len (st_skb s)) rate) as [dur |] eqn:Hdur.
  - rewrite (throttle_flow_run pol ∅ h key rate s dur Hdur). cbv zeta.
    rewrite !bpf_tail_call_empty by apply lookup_empty. unfold ret.
    assert (Hupd : forall v,
              (map_update_elem (st_flow_map s) key v BPF_ANY).2 = st_flow_map s \/
              exists v', (map_update_elem (st_flow_map s) key v BPF_ANY).2
                         = HashMap (max_entries (st_flow_map s))
                             (<[key := v']> (table (st_flow_map s))) /\
                         (is_Some (table (st_flow_map s) !! key) \/
                          entries (st_flow_map s) < max_entries (st_flow_map s))).
    { intros v. rewrite map_update_elem_any_spec.
      destruct (bool_decide (is_Some (table (st_flow_map s) !! key))) eqn:Hin.
      - right. exists v. split; [done |]. left. by apply bool_decide_eq_true in Hin.
      - destruct (Z.leb_spec (max_entries (st_flow_map s)) (entries (st_flow_map s))).
        + by left.
        + right. exists v. split; [done |]. by right. }
    destruct (candidate_next _ _ _ <=? _).
    { intros [= <- <-]. cbn [st_skb st_flow_map traced].
      split; [by left |]. split; [by rewrite stamped_same | apply Hupd]. }
    destruct (TIME_HORIZON_NS <=? _).
    { intros [= <- <-]. cbn [st_skb st_flow_map traced].
      split; [by right |]. split; [by rewrite stamped_same | by left]. }
    destruct (negb _).
    { intros [= <- <-]. cbn [st_skb st_flow_map].
      split; [by right |]. split; [by rewrite stamped_same | apply Hupd]. }
    intros [= <- <-]. cbn [st_skb st_flow_map traced].
    split; [by left |]. split; [reflexivity | apply Hupd].
  - unfold throttle_flow, lookup_flow_map, read_skb, bind, log, get, ret, lift_option.
    cbn [traced st_skb]. by rewrite Hdur.
Qed.

(** X12.  A run of [loss_bps] is confined to the flow of its packet.  For a
    packet with a complete header, whatever the answer: the answer is
    TC_ACT_OK or TC_ACT_SHOT; of the packet only the stamp can change; the
    pacing entry of every other flow (another interface or another source
    address) is as before; no entry is ever removed; the table keeps its
    capacity and gains at most one entry. *)
Theorem loss_bps_is_confined_to_its_flow
    (pol : div0_policy) (emu : hash_map flow_key handle_emu) (h : helpers)
    (s s' : tc_state) (act : Z) (eth : ethhdr) :
  parse_ethhdr (skb_data (st_skb s)) = Some eth ->
  loss_bps pol ∅ emu h s = Some (act, s') ->
  (act = TC_ACT_OK \/ act = TC_ACT_SHOT) /\
  st_skb s' = stamped (st_skb s) (skb_tstamp (st_skb s')) /\
  (forall k, k <> FlowKey (skb_ifindex (st_skb s)) (h_source eth) ->
             map_lookup_elem (st_flow_map s') k = map_lookup_elem (st_flow_map s) k) /\
  (forall k, is_Some (map_lookup_elem (st_flow_map s) k) ->
             is_Some (map_lookup_elem (st_flow_map s') k)) /\
  max_entries (st_flow_map s') = max_entries (st_flow_map s) /\
  entries (st_flow_map s) <= entries (st_flow_map s') <= entries (st_flow_map s) + 1.
Proof.
  intros Hparse. rewrite (loss_bps_run pol ∅ emu h s eth Hparse). cbv zeta.
  set (key := FlowKey (skb_ifindex (st_skb s)) (h_source eth)).
  assert (Hsame : forall a evs,
            Some (a, traced s evs) = Some (act, s') ->
            (a = TC_ACT_OK \/ a = TC_ACT_SHOT) ->
            (act = TC_ACT_OK \/ act = TC_ACT_SHOT) /\
            st_skb s' = stamped (st_skb s) (skb_tstamp (st_skb s')) /\
            (forall k, k <> key ->
                       map_lookup_elem (st_flow_map s') k = map_lookup_elem (st_flow_map s) k) /\
            (forall k, is_Some (map_lookup_elem (st_flow_map s) k) ->
                       is_Some (map_lookup_elem (st_flow_map s') k)) /\
            max_entries (st_flow_map s') = max_entries (st_flow_map s) /\
            entries (st_flow_map s) <= entries (st_flow_map s') <= entries (st_flow_map s) + 1).
  { intros a evs [= <- <-] Ha. cbn [traced st_skb st_flow_map].
    split; [done |]. split; [by rewrite stamped_same |]. repeat split; auto; lia. }
  assert (Hthr : forall rate evs,
            throttle_flow pol ∅ h key rate (traced s evs) = Some (act, s') ->
            (act = TC_ACT_OK \/ act = TC_ACT_SHOT) /\
            st_skb s' = stamped (st_skb s) (skb_tstamp (st_skb s')) /\
            (forall k, k <> key ->
                       map_lookup_elem (st_flow_map s') k = map_lookup_elem (st_flow_map s) k) /\
            (forall k, is_Some (map_lookup_elem (st_flow_map s) k) ->
                       is_Some (map_lookup_elem (st_flow_map s') k)) /\
            max_entries (st_flow_map s') = max_entries (st_flow_map s) /\
            entries (st_flow_map s) <= entries (st_flow_map s') <= entries (st_flow_map s) + 1).
  { intros rate evs Hrun.
    destruct (throttle_flow_effect _ _ _ _ _ _ _ Hrun) as (Hact & Hskb & Hfm).
    cbn [traced st_skb st_flow_map] in Hskb, Hfm.
    split; [exact Hact |]. split; [exact Hskb |].
    destruct Hfm as [-> | (v & -> & Hroom)]; [repeat split; auto; lia |].
    unfold map_lookup_elem, entries. cbn [table max_entries].
    split; [intros k Hk; by rewrite lookup_insert_ne |].
    split.
    { intros k Hk. destruct (decide (key = k)) as [<- | Hne].
      - rewrite lookup_insert_eq. eauto.
      - by rewrite lookup_insert_ne. }
    split; [reflexivity |].
    rewrite map_size_insert.
    destruct (table (st_flow_map s) !! key); cbn [id]; lia. }
  destruct (map_lookup_elem emu key) as [val |].
  - destruct (0 <? loss_rate val).
    + destruct (_ <? loss_rate val).
      * intros Hrun. apply (Hsame _ _ Hrun). by right.
      * apply Hthr.
    + apply Hthr.
  - intros Hrun. apply (Hsame _ _ Hrun). by left.
Qed.

Lemma loss_bps_is_confined_to_its_flow_witness :
  map_lookup_elem
    (HashMap flow_map_max_entries
       (<[Scenario.key := 6000 + 512000]>
          (<[Scenario.other_key 7 := 42]> ∅) : gmap flow_key Z))
    (Scenario.other_key 7)
  = map_lookup_elem
      (HashMap flow_map_max_entries (<[Scenario.other_key 7 := 42]> ∅ : gmap flow_key Z))
      (Scenario.other_key 7).
Proof.
  destruct (loss_bps_is_confined_to_its_flow Div0Undefined (Scenario.emu Scenario.spec)
              (Helpers 6000 0)
              (TcState (Scenario.small_packet 0)
                 (HashMap flow_map_max_entries (<[Scenario.other_key 7 := 42]> ∅)) [])
              (TcState (stamped (Scenario.small_packet 0) (6000 + 512000))
                 (HashMap flow_map_max_entries
                    (<[Scenario.key := 6000 + 512000]> (<[Scenario.other_key 7 := 42]> ∅)))
                 [EvMapLookup id_MAC_HANDLE_EMU; EvMapLookup id_flow_map; EvKtime;
                  EvMapUpdate id_flow_map; EvTailCall 0])
              TC_ACT_OK (ethhdr_at (Scenario.frame Scenario.mac_dst 64)))
    as (_ & _ & Hother & _).
  - reflexivity.
  - vm_compute. reflexivity.
  - apply (Hother (Scenario.other_key 7)). discriminate.
Defined.

Lemma loss_stage_verdict h loss_rate s :
  exists s', loss_stage h loss_rate s = Some (loss_verdict loss_rate (prandom_u32 h), s').
Proof.
  unfold loss_stage, loss_verdict.
  destruct (0 <? loss_rate); [| by eexists].
  unfold bpf_get_prandom_u32, bind, log, ret. by eexists.
Qed.

(** X13.  A loss rate of 10000 (100 %) or more shoots every packet of the
    flow, whatever number is drawn, before the pacing stage is reached: one
    lookup, one draw, no pacing access and no tail call. *)
Theorem loss_rate_of_10000_shoots_every_packet
    (pol : div0_policy) (progs : prog_array) (emu : hash_map flow_key handle_emu)
    (h : helpers) (s : tc_state) (eth : ethhdr) (v : handle_emu) :
  parse_ethhdr (skb_data (st_skb s)) = Some eth ->
  map_lookup_elem emu (FlowKey (skb_ifindex (st_skb s)) (h_source eth)) = Some v ->
  10000 <= loss_rate v ->
  loss_bps pol progs emu h s
  = Some (TC_ACT_SHOT, traced s [EvMapLookup id_MAC_HANDLE_EMU; EvPrandom]).
Proof.
  intros Hparse Hv Hfull.
  rewrite (loss_bps_run pol progs emu h s eth Hparse), Hv. cbv zeta.
  destruct (Z.ltb_spec 0 (loss_rate v)) as [_ | ?]; [| lia].
  pose proof (Z.mod_pos_bound (prandom_u32 h) PKT_LOSS_SCOPE) as Hm.
  unfold PKT_LOSS_SCOPE in *.
  destruct (Z.ltb_spec (prandom_u32 h mod 10000) (loss_rate v)) as [_ | ?]; [done | lia].
Qed.

Lemma loss_rate_of_10000_shoots_every_packet_witness :
  loss_bps Div0Undefined ∅ (Scenario.emu (HandleEmu 1000000 0 10000 0)) (Helpers 6000 4294967295)
    (TcState (Scenario.small_packet 0) flow_map_init [])
  = Some (TC_ACT_SHOT,
          traced (TcState (Scenario.small_packet 0) flow_map_init [])
            [EvMapLookup id_MAC_HANDLE_EMU; EvPrandom]).
Proof.
  apply (loss_rate_of_10000_shoots_every_packet Div0Undefined ∅
           (Scenario.emu (HandleEmu 1000000 0 10000 0)) (Helpers 6000 4294967295)
           (TcState (Scenario.small_packet 0) flow_map_init [])
           (ethhdr_at (Scenario.frame Scenario.mac_dst 64)) (HandleEmu 1000000 0 10000 0)).
  - reflexivity.
  - reflexivity.
  - simpl. lia.
Defined.

(** X14.  How many draws shoot a packet.  For a loss rate L between 0 and
    10000, of the draws 0, 1, ..., n-1 exactly (n / 10000) * L + min(L, n mod
    10000) lead to a drop: L of every 10000 consecutive draws counted from
    0.  The 2^32 values a draw can take are 429,496 such blocks and 7,296
    more, so the rate over all draws is (429496 * L + min(L, 7296)) / 2^32. *)
Theorem loss_rate_counts_the_dropping_draws (L : Z) (n : nat) :
  0 <= L <= 10000 ->
  (forall h s, exists s',
      loss_stage h L s = Some (loss_verdict L (prandom_u32 h), s')) /\
  Z.of_nat (length (List.filter (fun r => loss_verdict L (Z.of_nat r)) (seq 0 n)))
  = Z.of_nat n / 10000 * L + Z.min L (Z.of_nat n mod 10000) /\
  2 ^ 32 / 10000 = 429496 /\ 2 ^ 32 mod 10000 = 7296.
Proof.
  intros HL. split; [intros h s; apply loss_stage_verdict |].
  split; [| split; reflexivity].
  induction n as [| n IH].
  - cbn [seq List.filter length]. change (Z.of_nat 0) with 0.
    rewrite Z.div_0_l, Z.mod_0_l by lia. lia.
  - rewrite seq_S, List.filter_app, length_app, Nat2Z.inj_add, IH.
    cbn [Nat.add List.filter]. unfold loss_verdict, PKT_LOSS_SCOPE.
    rewrite Nat2Z.inj_succ. set (m := Z.of_nat n).
    assert (Hm : 0 <= m) by lia.
    pose proof (Z.div_mod m 10000 ltac:(lia)) as Hdm.
    pose proof (Z.mod_pos_bound m 10000 ltac:(lia)) as Hr.
    set (q := m / 10000) in *. set (r := m mod 10000) in *.
    destruct (Z.eq_dec r 9999) as [Hlast | Hnot].
    + assert (Hq : Z.succ m / 10000 = q + 1)
        by (symmetry; apply (Z.div_unique _ _ _ 0); lia).
      assert (Hr' : Z.succ m mod 10000 = 0)
        by (symmetry; apply (Z.mod_unique _ _ (q + 1)); lia).
      rewrite Hq, Hr'.
      destruct (Z.ltb_spec 0 L); [destruct (Z.ltb_spec r L) |]; cbn [length]; lia.
    + assert (Hq : Z.succ m / 10000 = q)
        by (symmetry; apply (Z.div_unique _ _ _ (r + 1)); lia).
      assert (Hr' : Z.succ m mod 10000 = r + 1)
        by (symmetry; apply (Z.mod_unique _ _ q); lia).
      rewrite Hq, Hr'.
      destruct (Z.ltb_spec 0 L); [destruct (Z.ltb_spec r L) |]; cbn [length]; lia.
Qed.

Lemma loss_rate_counts_the_dropping_draws_witness :
  Z.of_nat (length (List.filter (fun r => loss_verdict 2500 (Z.of_nat r)) (seq 0 20)))
  = Z.of_nat 20 / 10000 * 2500 + Z.min 2500 (Z.of_nat 20 mod 10000).
Proof.
  destruct (loss_rate_counts_the_dropping_draws 2500 20) as (_ & Hcount & _).
  - lia.
  - exact Hcount.
Defined.

(** ** [xdp_l2_fwd_prog] *)

Lemma forward_cases mac_table tx_ports ctx :
  Xdp.forward mac_table tx_ports ctx
  = if (length (Xdp.data ctx) <? ETH_HLEN)%nat then Some (Xdp.Dropped, [])
    else if Z.testbit (nth 0 (Xdp.data ctx) 0) 0 then
      Some (Xdp.FloodedTo (Xdp.ports tx_ports ∖ {[ Xdp.ingress_ifindex ctx ]}),
            [EvRedirectMap id_tx_ports])
    else
      match map_lookup_elem mac_table (take 6 (Xdp.data ctx)) with
      | Some d =>
          Some (if bool_decide (d ∈ Xdp.ports tx_ports)
                then Xdp.RedirectedTo d else Xdp.Dropped,
                [EvMapLookup id_mac_table; EvRedirectMap id_tx_ports])
      | None => Some (Xdp.DefaultDelivery, [EvMapLookup id_mac_table])
      end.
Proof.
  unfold Xdp.forward, Xdp.xdp_l2_fwd_prog.
  destruct (Nat.ltb_spec (length (Xdp.data ctx)) ETH_HLEN) as [? | Hlen]; [done |].
  rewrite (first_dest_byte _ Hlen), land_1_testbit, negb_involutive.
  destruct (Z.testbit (nth 0 (Xdp.data ctx) 0) 0).
  - unfold Xdp.bpf_redirect_map, bind, Xdp.log, Xdp.set_redirect, ret.
    cbn [Xdp.xs_redirect Xdp.xs_trace Xdp.xdp_init negb].
    change (negb (Z.land (Z.lor Xdp.BPF_F_BROADCAST Xdp.BPF_F_EXCLUDE_INGRESS) _ =? 0))
      with false. cbv iota.
    change (Z.land (Z.lor Xdp.BPF_F_BROADCAST Xdp.BPF_F_EXCLUDE_INGRESS)
              Xdp.BPF_F_BROADCAST =? 0) with false.
    rewrite andb_false_r. reflexivity.
  - unfold Xdp.lookup_mac_table, bind, Xdp.log, ret. cbn [h_dest ethhdr_at].
    change (take ETH_ALEN (Xdp.data ctx)) with (take 6 (Xdp.data ctx)).
    destruct (map_lookup_elem mac_table (take 6 (Xdp.data ctx))) as [d |]; [| done].
    unfold Xdp.bpf_redirect_map, bind, Xdp.log, Xdp.set_redirect, ret.
    cbn [Xdp.xs_redirect Xdp.xs_trace].
    change (negb (Z.land 0 _ =? 0)) with false. cbv iota.
    change (Z.land 0 Xdp.BPF_F_BROADCAST =? 0) with true.
    rewrite andb_true_r.
    destruct (bool_decide (d ∈ Xdp.ports tx_ports)); reflexivity.
Qed.

(** X15.  Whatever the packet and the tables, the forwarding program hands
    a packet only to interfaces of the egress port set: it never answers
    XDP_TX, a flood never includes the ingress interface, a redirect goes to
    the interface the forwarding table holds for the destination address,
    and default delivery happens only for a destination the table does not
    know.  The program reads the forwarding table at most once and writes
    no table. *)
Theorem forward_only_reaches_egress_ports
    (mac_table : hash_map (list Z) Z) (tx_ports : Xdp.devmap) (ctx : Xdp.xdp_md)
    (d : Xdp.disposition) (tr : list event) :
  Xdp.forward mac_table tx_ports ctx = Some (d, tr) ->
  d <> Xdp.Bounced /\
  (forall i, Xdp.delivers_to d i -> i ∈ Xdp.ports tx_ports) /\
  (forall targets, d = Xdp.FloodedTo targets -> Xdp.ingress_ifindex ctx ∉ targets) /\
  (forall i, d = Xdp.RedirectedTo i ->
             map_lookup_elem mac_table (take 6 (Xdp.data ctx)) = Some i) /\
  (d = Xdp.DefaultDelivery ->
   map_lookup_elem mac_table (take 6 (Xdp.data ctx)) = None) /\
  (forall e, e ∈ tr -> e = EvMapLookup id_mac_table \/ e = EvRedirectMap id_tx_ports).
Proof.
  rewrite forward_cases.
  destruct (length (Xdp.data ctx) <? ETH_HLEN)%nat.
  { intros [= <- <-]. repeat split; try done. intros e He. elem_of_cases He. }
  destruct (Z.testbit (nth 0 (Xdp.data ctx) 0) 0).
  { intros [= <- <-]. split; [done |]. split.
    - intros i Hi. cbn [Xdp.delivers_to] in Hi.
      by apply elem_of_difference in Hi as [Hi _].
    - split.
      { intros T [= <-] [_ Hnot]%elem_of_difference.
        apply Hnot. by apply elem_of_singleton. }
      repeat split; try done. intros e He. elem_of_cases He. }
  destruct (map_lookup_elem mac_table (take 6 (Xdp.data ctx))) as [j |].
  - destruct (bool_decide (j ∈ Xdp.ports tx_ports)) eqn:Hin.
    + apply bool_decide_eq_true in Hin. intros [= <- <-].
      split; [done |]. split; [intros i ->; exact Hin |].
      split; [done |]. split; [by intros i [= <-] |]. split; [done |].
      intros e He. elem_of_cases He.
    + intros [= <- <-]. repeat split; try done. intros e He. elem_of_cases He.
  - intros [= <- <-]. repeat split; try done. intros e He. elem_of_cases He.
Qed.

Lemma forward_only_reaches_egress_ports_witness :
  Xdp.ingress_ifindex (Xdp.XdpMd (Scenario.frame Scenario.mac_bcast 64) 3)
  ∉ ({[ 3; 4; 5 ]} ∖ {[ 3 ]} : gset Z).
Proof.
  destruct (forward_only_reaches_egress_ports (Scenario.mac_table_with 5)
              (Xdp.DevMap 1024 {[ 3; 4; 5 ]})
              (Xdp.XdpMd (Scenario.frame Scenario.mac_bcast 64) 3)
              (Xdp.FloodedTo ({[ 3; 4; 5 ]} ∖ {[ 3 ]}))
              [EvRedirectMap id_tx_ports]) as (_ & _ & Hflood & _).
  - vm_compute. reflexivity.
  - by apply Hflood.
Defined.

(** X16.  The forwarding decision depends on the packet only through its
    destination address: two packets with complete headers and the same
    first six bytes that enter on the same interface get the same
    disposition from the same tables, whatever their source addresses,
    types, lengths and payloads. *)
Theorem forward_depends_on_destination_only
    (mac_table : hash_map (list Z) Z) (tx_ports : Xdp.devmap) (ctx1 ctx2 : Xdp.xdp_md) :
  (ETH_HLEN <= length (Xdp.data ctx1))%nat ->
  (ETH_HLEN <= length (Xdp.data ctx2))%nat ->
  take 6 (Xdp.data ctx1) = take 6 (Xdp.data ctx2) ->
  Xdp.ingress_ifindex ctx1 = Xdp.ingress_ifindex ctx2 ->
  Xdp.forward mac_table tx_ports ctx1 = Xdp.forward mac_table tx_ports ctx2.
Proof.
  intros Hlen1 Hlen2 Hdst Hin. rewrite !forward_cases.
  destruct (Nat.ltb_spec (length (Xdp.data ctx1)) ETH_HLEN) as [? | _]; [lia |].
  destruct (Nat.ltb_spec (length (Xdp.data ctx2)) ETH_HLEN) as [? | _]; [lia |].
  assert (Hfirst : nth 0 (Xdp.data ctx1) 0 = nth 0 (Xdp.data ctx2) 0).
  { unfold ETH_HLEN in Hlen1, Hlen2.
    destruct (Xdp.data ctx1) as [| a l1]; [simpl in Hlen1; lia |].
    destruct (Xdp.data ctx2) as [| b l2]; [simpl in Hlen2; lia |].
    by injection Hdst as -> _. }
  by rewrite Hfirst, Hdst, Hin.
Qed.

Lemma forward_depends_on_destination_only_witness :
  Xdp.forward (Scenario.mac_table_with 5) (Xdp.DevMap 1024 {[ 4; 5 ]})
    (Xdp.XdpMd (Scenario.frame Scenario.mac_dst 64) 3)
  = Xdp.forward (Scenario.mac_table_with 5) (Xdp.DevMap 1024 {[ 4; 5 ]})
      (Xdp.XdpMd (Scenario.frame Scenario.mac_dst 1500) 3).
Proof.
  apply forward_depends_on_destination_only.
  - apply Nat.leb_le. vm_compute. reflexivity.
  - apply Nat.leb_le. vm_compute. reflexivity.
  - reflexivity.
  - reflexivity.
Defined.

(** ** A sequence of packets through the pacing stage *)

(** The two ways a packet gets through the pacing stage. *)
Lemma throttle_flow_pass_cases pol h key rate s dur s' :
  throttle_delay_ns pol (skb_len (st_skb s)) rate = Some dur ->
  0 < dur ->
  0 <= ktime_ns h ->
  0 <= skb_tstamp (st_skb s) ->
  departure (st_skb s) (ktime_ns h) + dur < 2 ^ 64 ->
  (forall last, map_lookup_elem (st_flow_map s) key = Some last ->
                0 <= last /\ last + dur < 2 ^ 64) ->
  throttle_flow pol ∅ h key rate s = Some (TC_ACT_OK, s') ->
  exists e,
    map_lookup_elem (st_flow_map s') key = Some e /\
    departure (st_skb s') (ktime_ns h) <= e /\
    0 <= e /\
    (e = departure (st_skb s) (ktime_ns h) + dur \/ e - ktime_ns h < 2 * 10 ^ 9) /\
    (forall last, map_lookup_elem (st_flow_map s) key = Some last ->
                  last + dur <= departure (st_skb s') (ktime_ns h)).
Proof.
  intros Hd Hdur Hnow Hts Hbase Hlast Hrun.
  destruct (throttle_flow_ok_inv pol h key rate s dur s' Hd Hdur Hnow Hts Hbase Hlast Hrun)
    as (e & He & Hde & Hcase & _ & _ & Hafter).
  pose proof (departure_lower (st_skb s) (ktime_ns h)) as [Hb _].
  pose proof (departure_lower (st_skb s') (ktime_ns h)) as [Hb' _].
  exists e. split; [exact He |]. split; [exact Hde |]. split; [lia |].
  split; [| exact Hafter].
  destruct Hcase as [-> | (last & Hl & ->)]; [by left |].
  revert Hrun.
  rewrite (throttle_flow_run pol ∅ h key rate s dur Hd). cbv zeta.
  rewrite Hl. cbn [candidate_next].
  destruct (Hlast last Hl) as [Hl0 Hl1].
  rewrite (u64_small (last + dur)) by lia.
  destruct (Z.leb_spec (last + dur) (departure (st_skb s) (ktime_ns h))) as [Hidle | _].
  - (* the entry would then be base + dur: both readings agree *)
    rewrite bpf_tail_call_empty by apply lookup_empty. unfold ret.
    intros [= <-]. cbn [st_flow_map traced] in He.
    rewrite u64_small in He by lia.
    rewrite map_update_elem_any_result in He
      by (eapply map_update_elem_any_present; exact Hl).
    injection He as He. left. lia.
  - rewrite u64_small by lia.
    destruct (Z.leb_spec TIME_HORIZON_NS (last + dur - ktime_ns h)) as [_ | Hnear];
      [done |].
    unfold TIME_HORIZON_NS in Hnear. intros _. right. lia.
Qed.

Lemma throttle_flow_shot_keeps_table pol h key rate s act s' :
  throttle_flow pol ∅ h key rate s = Some (act, s') ->
  act <> TC_ACT_OK ->
  st_flow_map s' = st_flow_map s.
Proof.
  destruct (throttle_delay_ns pol (skb_len (st_skb s)) rate) as [dur |] eqn:Hdur.
  - rewrite (throttle_flow_run pol ∅ h key rate s dur Hdur). cbv zeta.
    rewrite !bpf_tail_call_empty by apply lookup_empty. unfold ret.
    destruct (candidate_next _ _ _ <=? _); [by intros [= <- <-] |].
    destruct (TIME_HORIZON_NS <=? _); [by intros [= <- <-] |].
    rewrite map_update_elem_any_spec.
    destruct (bool_decide _ || negb _); cbn [fst snd negb Z.eqb E2BIG Z.opp];
      by intros [= <- <-].
  - unfold throttle_flow, lookup_flow_map, read_skb, bind, log, get, ret, lift_option.
    cbn [traced st_skb]. by rewrite Hdur.
Qed.

Lemma pace_all_spaced pol key rate pkts :
  0 < rate < 2 ^ 32 ->
  Forall paced_input pkts ->
  forall fm,
    (forall last, map_lookup_elem fm key = Some last -> 0 <= last < 2 ^ 62 + 2 ^ 61) ->
    (forall last d len,
        map_lookup_elem fm key = Some last ->
        (pace_all pol key rate fm pkts).1 !! 0%nat = Some (d, len) ->
        last + len * 8 * 1000000000 / rate <= d) /\
    (forall i d1 len1 d2 len2,
        (pace_all pol key rate fm pkts).1 !! i = Some (d1, len1) ->
        (pace_all pol key rate fm pkts).1 !! S i = Some (d2, len2) ->
        d1 + len2 * 8 * 1000000000 / rate <= d2).
Proof.
  intros Hrate Hall. induction Hall as [| [b h] pkts Hin Hall IH]; intros fm Hfm.
  { cbn [pace_all fst]. split; intros; by rewrite ?lookup_nil in *. }
  destruct Hin as (Hlen & Hst & Hnow). cbn [fst snd] in Hlen, Hst, Hnow.
  cbn [pace_all].
  destruct (throttle_flow pol ∅ h key rate (TcState b fm [])) as [[act s'] |] eqn:Hrun;
    [| cbn [fst]; split; intros; by rewrite ?lookup_nil in *].
  destruct (Z.eqb_spec act TC_ACT_OK) as [-> | Hshot].
  - destruct (throttle_delay_ns_bounds pol _ _ Hrate Hlen) as (dur & Hdur & Hd).
    assert (Hdur_eq : dur = skb_len b * 8 * 1000000000 / rate).
    { unfold throttle_delay_ns in Hdur. rewrite udiv64_nonzero in Hdur by lia.
      rewrite u64_mul_l in Hdur. unfold NS_PER_SEC in Hdur.
      rewrite u64_small in Hdur by lia. by injection Hdur as <-. }
    assert (Hdep : departure b (ktime_ns h) < 2 ^ 62).
    { unfold departure. destruct (Z.ltb_spec (skb_tstamp b) (ktime_ns h)); lia. }
    destruct (throttle_flow_pass_cases pol h key rate (TcState b fm []) dur s')
      as (e & He & Hde & He0 & Hebound & Hafter);
      [exact Hdur | lia | lia | cbn [st_skb]; lia | cbn [st_skb]; lia | | exact Hrun |].
    { cbn [st_flow_map]. intros last Hl%Hfm. lia. }
    cbn [st_skb st_flow_map] in Hebound, Hafter.
    destruct (IH (st_flow_map s')) as [IHhead IHadj].
    { intros last Hl. rewrite He in Hl. injection Hl as <-. lia. }
    cbn [fst]. split.
    + intros last d len Hl [= <- <-]. rewrite <- Hdur_eq. by apply Hafter.
    + intros [| i] d1 len1 d2 len2.
      * intros [= <- <-] Hsecond. cbn in Hsecond.
        pose proof (IHhead e d2 len2 He Hsecond). lia.
      * cbn. apply IHadj.
  - rewrite (throttle_flow_shot_keeps_table _ _ _ _ _ _ _ Hrun Hshot).
    cbn [st_flow_map]. by apply IH.
Qed.

(** X17.  The rate limit over a whole run of packets.  When packets of one
    flow pass through the pacing stage one after the other -- some let
    through, some shot, in any mix of backlog and idle periods -- every
    packet that is let through departs no earlier than the previous one that
    was let through plus its own transmission duration
    length * 8 * 1e9 / rate.  (Lengths below 2^28, clocks, stamps and the
    initial pacing entry below 2^62.) *)
Theorem paced_sequence_is_spaced
    (pol : div0_policy) (key : flow_key) (rate : Z) (fm : hash_map flow_key Z)
    (pkts : list (sk_buff * helpers)) (i : nat) (d1 len1 d2 len2 : Z) :
  0 < rate < 2 ^ 32 ->
  Forall paced_input pkts ->
  (forall last, map_lookup_elem fm key = Some last -> 0 <= last < 2 ^ 62) ->
  (pace_all pol key rate fm pkts).1 !! i = Some (d1, len1) ->
  (pace_all pol key rate fm pkts).1 !! S i = Some (d2, len2) ->
  d1 + len2 * 8 * 1000000000 / rate <= d2.
Proof.
  intros Hrate Hall Hfm.
  destruct (pace_all_spaced pol key rate pkts Hrate Hall fm) as [_ Hadj].
  - intros last Hl%Hfm. lia.
  - apply Hadj.
Qed.

Lemma paced_sequence_is_spaced_witness :
  12006000 + 1500 * 8 * 1000000000 / 1000000 <= 24006000.
Proof.
  apply (paced_sequence_is_spaced Div0Undefined Scenario.key 1000000 flow_map_init
           [(Scenario.packet 0, Helpers 6000 0); (Scenario.packet 0, Helpers 7000 0);
            (Scenario.packet 0, Helpers 50000000 0)]
           0 12006000 1500 24006000 1500).
  - lia.
  - repeat constructor; simpl; lia.
  - intros last Hl. unfold map_lookup_elem, flow_map_init in Hl.
    cbn [table] in Hl. by rewrite lookup_empty in Hl.
  - vm_compute. reflexivity.
  - vm_compute. reflexivity.
Defined.

(** The run behind the witness: two packets queued 12 ms apart, and a third
    one that arrives after an idle period and leaves at once. *)
Example three_packets_paced :
  (pace_all Div0Undefined Scenario.key 1000000 flow_map_init
     [(Scenario.packet 0, Helpers 6000 0); (Scenario.packet 0, Helpers 7000 0);
      (Scenario.packet 0, Helpers 50000000 0)]).1
  = [(12006000, 1500); (24006000, 1500); (50000000, 1500)].
Proof. vm_compute. reflexivity. Qed.

(** X18.  The impairment programs tell flows apart by interface and source
    address alone: two packets with complete headers that agree in length,
    interface, stamp and source address (bytes 6 to 11) get the same answer
    from [loss_bps], leave the same pacing table and the same trace, and end
    with the same stamp, whatever their destination, type and payload. *)
Theorem loss_bps_depends_on_source_only
    (pol : div0_policy) (emu : hash_map flow_key handle_emu) (h : helpers)
    (b1 b2 : sk_buff) (fm : hash_map flow_key Z) (tr : list event) :
  (ETH_HLEN <= length (skb_data b1))%nat ->
  (ETH_HLEN <= length (skb_data b2))%nat ->
  skb_len b1 = skb_len b2 ->
  skb_ifindex b1 = skb_ifindex b2 ->
  skb_tstamp b1 = skb_tstamp b2 ->
  take 6 (drop 6 (skb_data b1)) = take 6 (drop 6 (skb_data b2)) ->
  match loss_bps pol ∅ emu h (TcState b1 fm tr),
        loss_bps pol ∅ emu h (TcState b2 fm tr) with
  | Some (act1, s1), Some (act2, s2) =>
      act1 = act2 /\ st_flow_map s1 = st_flow_map s2 /\ st_trace s1 = st_trace s2 /\
      skb_tstamp (st_skb s1) = skb_tstamp (st_skb s2)
  | None, None => True
  | _, _ => False
  end.
Proof.
  intros Hlen1 Hlen2 Hlen Hif Hts Hsrc.
  assert (Hp1 : parse_ethhdr (skb_data (st_skb (TcState b1 fm tr)))
                = Some (ethhdr_at (skb_data b1))).
  { cbn [st_skb]. unfold parse_ethhdr.
    by destruct (Nat.ltb_spec (length (skb_data b1)) ETH_HLEN); [lia |]. }
  assert (Hp2 : parse_ethhdr (skb_data (st_skb (TcState b2 fm tr)))
                = Some (ethhdr_at (skb_data b2))).
  { cbn [st_skb]. unfold parse_ethhdr.
    by destruct (Nat.ltb_spec (length (skb_data b2)) ETH_HLEN); [lia |]. }
  rewrite (loss_bps_run pol ∅ emu h _ _ Hp1), (loss_bps_run pol ∅ emu h _ _ Hp2).
  cbv zeta. cbn [st_skb h_source ethhdr_at].
  change (take ETH_ALEN (drop ETH_ALEN ?l)) with (take 6 (drop 6 l)).
  rewrite <- Hsrc, <- Hif.
  set (key := FlowKey (skb_ifindex b1) (take 6 (drop 6 (skb_data b1)))).
  assert (Hthr : forall rate evs,
            match throttle_flow pol ∅ h key rate (traced (TcState b1 fm tr) evs),
                  throttle_flow pol ∅ h key rate (traced (TcState b2 fm tr) evs) with
            | Some (act1, s1), Some (act2, s2) =>
                act1 = act2 /\ st_flow_map s1 = st_flow_map s2 /\
                st_trace s1 = st_trace s2 /\
                skb_tstamp (st_skb s1) = skb_tstamp (st_skb s2)
            | None, None => True
            | _, _ => False
            end).
  { intros rate evs.
    destruct (throttle_delay_ns pol (skb_len b1) rate) as [dur |] eqn:Hdur.
    - rewrite (throttle_flow_run pol ∅ h key rate (traced (TcState b1 fm tr) evs) dur)
        by exact Hdur.
      rewrite (throttle_flow_run pol ∅ h key rate (traced (TcState b2 fm tr) evs) dur)
        by (cbn [traced st_skb]; by rewrite <- Hlen).
      cbv zeta. cbn [traced st_skb st_flow_map st_trace].
      rewrite !bpf_tail_call_empty by apply lookup_empty. unfold ret.
      assert (Hdep : departure b2 (ktime_ns h) = departure b1 (ktime_ns h))
        by (unfold departure; by rewrite Hts).
      rewrite Hdep.
      destruct (candidate_next _ _ _ <=? _);
        [cbn [traced st_skb st_flow_map st_trace]; by rewrite Hts |].
      destruct (TIME_HORIZON_NS <=? _);
        [cbn [traced st_skb st_flow_map st_trace]; by rewrite Hts |].
      destruct (negb _); cbn [traced st_skb st_flow_map st_trace stamped skb_tstamp];
        by rewrite ?Hts.
    - unfold throttle_flow, lookup_flow_map, read_skb, bind, log, get, ret, lift_option.
      cbn [traced st_skb]. rewrite <- Hlen. by rewrite Hdur. }
  destruct (map_lookup_elem emu key) as [val |].
  - destruct (0 <? loss_rate val).
    + destruct (_ <? loss_rate val); [| apply Hthr].
      cbn [traced st_skb st_flow_map st_trace]. by rewrite Hts.
    + apply Hthr.
  - cbn [traced st_skb st_flow_map st_trace]. by rewrite Hts.
Qed.

Lemma loss_bps_depends_on_source_only_witness :
  match loss_bps Div0Undefined ∅ (Scenario.emu Scenario.spec) (Helpers 6000 0)
          (TcState (SkBuff 64 3 0 (Scenario.frame Scenario.mac_dst 64)) flow_map_init []),
        loss_bps Div0Undefined ∅ (Scenario.emu Scenario.spec) (Helpers 6000 0)
          (TcState (SkBuff 64 3 0 (Scenario.frame Scenario.mac_bcast 64)) flow_map_init [])
  with
  | Some (act1, s1), Some (act2, s2) =>
      act1 = act2 /\ st_flow_map s1 = st_flow_map s2 /\ st_trace s1 = st_trace s2 /\
      skb_tstamp (st_skb s1) = skb_tstamp (st_skb s2)
  | None, None => True
  | _, _ => False
  end.
Proof.
  apply loss_bps_depends_on_source_only.
  - apply Nat.leb_le. vm_compute. reflexivity.
  - apply Nat.leb_le. vm_compute. reflexivity.
  - reflexivity.
  - reflexivity.
  - reflexivity.
  - reflexivity.
Defined.
